(** * The gotcha component of timemory: binding table, symbol filter,
      activation counters and call dispatcher

    A shallow embedding of
    [source/timemory/components/gotcha/components.cpp]
    (class template [tim::component::gotcha<Nt, BundleT, DiffT>]).

    The engine state that the C++ code reaches through static accessors
    ([get_data()], [get_started()], [get_permit_list()], ...) is gathered in
    one record [state] that every operation takes and returns.  Calls into
    collaborators that live outside the file (the GOTCHA backend, the storage
    singleton, the measurement bundle, diagnostics on stdout/stderr) are
    recorded, in program order, in the [trace] field of that record. *)

From Stdlib Require Import ZArith String Ascii.
From stdpp Require Import base gmap sets list strings.

Local Open Scope string_scope.

(** ** [std::string] operations used by the component *)

Module StdString.

(** [s.empty()] *)
Definition empty (s : string) : bool :=
  match s with EmptyString => true | String _ _ => false end.

(** [s.find(pat)]: position of the first occurrence, [None] for [npos]. *)
Definition find (pat s : string) : option nat := String.index 0 pat s.

(** [s.find(pat) != std::string::npos] *)
Definition contains (pat s : string) : bool :=
  match find pat s with Some _ => true | None => false end.

(** [s.find(pat) != 0] *)
Definition find_ne_0 (pat s : string) : bool :=
  match find pat s with Some 0 => false | _ => true end.

(** [s.erase(pos, 1)] *)
Definition erase1 (pos : nat) (s : string) : string :=
  String.substring 0 pos s ++
  String.substring (S pos) (String.length s - S pos) s.

(** [tolower] of the C locale on one character. *)
Definition tolower (c : ascii) : ascii :=
  let n := nat_of_ascii c in
  if (65 <=? n)%nat && (n <=? 90)%nat then ascii_of_nat (n + 32) else c.

Fixpoint map (f : ascii -> ascii) (s : string) : string :=
  match s with
  | EmptyString => EmptyString
  | String c s' => String (f c) (map f s')
  end.

(** [s[s.length() - 1]]; the component only evaluates it on non-empty
    literals, the empty string has no last character. *)
Definition back (s : string) : option ascii :=
  String.get (String.length s - 1) s.

End StdString.

(** ** Slots of the binding table: [gotcha_data] *)

(** The only address the component ever stores in [gotcha_data::suppression]
    is [&gotcha_suppression::get()]. *)
Inductive flag_ref : Set :=
| gotcha_suppression_get.

(** [gotcha_data::constructor]: either the closure the slot is created with
    or the closure [construct] records, which captures
    [_func], [_priority], [_tool] and calls [construct<N, Ret, Args...>]. *)
Inductive constructor_t : Set :=
| constructor_default
| constructor_construct (_func : string) (_priority : Z) (_tool : string).

(** [gotcha_data::destructor]: the initial closure or
    [[]() { this_type::revert<N>(); }]. *)
Inductive destructor_t : Set :=
| destructor_default
| destructor_revert.

Record gotcha_data : Set := mk_gotcha_data {
  ready        : bool;
  filled       : bool;
  is_active    : bool;
  is_finalized : bool;
  priority     : Z;
  tool_id      : string;
  wrap_id      : string;
  constructor  : constructor_t;
  destructor   : destructor_t;
  suppression  : option flag_ref;   (* [bool*], [None] for [nullptr] *)
  debug        : bool;              (* [debug != nullptr]; it then points to [settings::debug()] *)
  binding      : option string      (* [construct_binder<N, ...>(wrap_id)] once installed *)
}.

(** Modelled from the spec: the member initialisers of [gotcha_data] are in
    [backends.hpp]; "a slot is created empty", with every flag false, no
    suppression reference and closures that do nothing. *)
Definition gotcha_data_init : gotcha_data :=
  {| ready := false; filled := false; is_active := false;
     is_finalized := false; priority := 0; tool_id := ""; wrap_id := "";
     constructor := constructor_default; destructor := destructor_default;
     suppression := None; debug := false; binding := None |}.

Definition put_ready (v : bool) (d : gotcha_data) : gotcha_data :=
  {| ready := v; filled := filled d; is_active := is_active d;
     is_finalized := is_finalized d; priority := priority d;
     tool_id := tool_id d; wrap_id := wrap_id d;
     constructor := constructor d; destructor := destructor d;
     suppression := suppression d; debug := debug d; binding := binding d |}.

Definition put_is_active (v : bool) (d : gotcha_data) : gotcha_data :=
  {| ready := ready d; filled := filled d; is_active := v;
     is_finalized := is_finalized d; priority := priority d;
     tool_id := tool_id d; wrap_id := wrap_id d;
     constructor := constructor d; destructor := destructor d;
     suppression := suppression d; debug := debug d; binding := binding d |}.

Definition put_is_finalized (v : bool) (d : gotcha_data) : gotcha_data :=
  {| ready := ready d; filled := filled d; is_active := is_active d;
     is_finalized := v; priority := priority d;
     tool_id := tool_id d; wrap_id := wrap_id d;
     constructor := constructor d; destructor := destructor d;
     suppression := suppression d; debug := debug d; binding := binding d |}.

Definition put_debug (v : bool) (d : gotcha_data) : gotcha_data :=
  {| ready := ready d; filled := filled d; is_active := is_active d;
     is_finalized := is_finalized d; priority := priority d;
     tool_id := tool_id d; wrap_id := wrap_id d;
     constructor := constructor d; destructor := destructor d;
     suppression := suppression d; debug := v; binding := binding d |}.

(** ** Calls that leave the component *)

Inductive bundle_call : Set :=
| bundle_ctor (_tool_id : string)      (* [bundle_type _bundle{ _data.tool_id }] *)
| bundle_construct
| bundle_start
| bundle_store
| bundle_audit_incoming
| bundle_audit_outgoing
| bundle_stop.

Inductive event : Set :=
| init_storage                                           (* [init_storage<bundle_type>(0)] *)
| add_hash_id (s : string)                               (* [storage_type::instance()->add_hash_id(s)] *)
| backend_wrap (N : nat) (_wrap_id _tool_id : string)    (* [backend::gotcha::wrap(binding, tool_id)] *)
| backend_set_priority (_tool_id : string) (p : Z)       (* [backend::gotcha::set_priority(tool_id, p)] *)
| check_error (N : nat) (_prefix : string)               (* [check_error<N>(ret, prefix)]: diagnostics only *)
| call_constructor (N : nat)                             (* [get_data()[N].constructor()] *)
| call_destructor (N : nat)                              (* [get_data()[N].destructor()] *)
| call_initializer                                       (* [get_initializer()()] *)
| printf_skipping (_func : string)                       (* "Skipping gotcha binding for %s..." *)
| printf_in_reject_list (_func : string)
| printf_not_in_permit_list (_func : string)
| print_here (msg : string)                              (* [TIMEMORY_PRINT_HERE] *)
| fprintf_not_ready (_tool_id : string) (_ready _suppress : bool)
| bundle (N : nat) (c : bundle_call).

(** ** Engine state *)

(** The two activation counters are declared in [components.hpp]; they are
    signed and are modelled as integers.  [thread_started] keeps the
    thread-local counter of every thread.  The mutex that [configure()] and
    [disable()] take orders concurrent callers; the operations below run one
    at a time, so it leaves no trace in the state. *)

Record state : Type := mk_state {
  data               : list gotcha_data;          (* [get_data()], [Nt] slots *)
  started            : Z;                         (* [get_started()] *)
  thread_started     : gmap nat Z;                (* [get_thread_started()], one counter per thread *)
  is_configured      : bool;
  default_ready      : bool;                      (* [get_default_ready()] *)
  permit_list        : gset string;               (* [get_permit_list()()] *)
  reject_list        : gset string;               (* [get_reject_list()()] *)
  suppresses         : gset string;               (* [get_suppresses()] *)
  initializer        : list (nat * string * Z * string);
  gotcha_suppression : bool;                      (* [gotcha_suppression::get()] *)
  is_finalizing      : bool;                      (* [storage_type::is_finalizing()] *)
  settings_debug     : bool;                      (* [settings::debug()] *)
  trace              : list event
}.

Definition with_data (v : list gotcha_data) (s : state) : state :=
  {| data := v; started := started s; thread_started := thread_started s;
     is_configured := is_configured s; default_ready := default_ready s;
     permit_list := permit_list s; reject_list := reject_list s;
     suppresses := suppresses s; initializer := initializer s;
     gotcha_suppression := gotcha_suppression s;
     is_finalizing := is_finalizing s; settings_debug := settings_debug s;
     trace := trace s |}.

Definition with_started (v : Z) (s : state) : state :=
  {| data := data s; started := v; thread_started := thread_started s;
     is_configured := is_configured s; default_ready := default_ready s;
     permit_list := permit_list s; reject_list := reject_list s;
     suppresses := suppresses s; initializer := initializer s;
     gotcha_suppression := gotcha_suppression s;
     is_finalizing := is_finalizing s; settings_debug := settings_debug s;
     trace := trace s |}.

Definition with_thread_started (v : gmap nat Z) (s : state) : state :=
  {| data := data s; started := started s; thread_started := v;
     is_configured := is_configured s; default_ready := default_ready s;
     permit_list := permit_list s; reject_list := reject_list s;
     suppresses := suppresses s; initializer := initializer s;
     gotcha_suppression := gotcha_suppression s;
     is_finalizing := is_finalizing s; settings_debug := settings_debug s;
     trace := trace s |}.

Definition with_is_configured (v : bool) (s : state) : state :=
  {| data := data s; started := started s; thread_started := thread_started s;
     is_configured := v; default_ready := default_ready s;
     permit_list := permit_list s; reject_list := reject_list s;
     suppresses := suppresses s; initializer := initializer s;
     gotcha_suppression := gotcha_suppression s;
     is_finalizing := is_finalizing s; settings_debug := settings_debug s;
     trace := trace s |}.

Definition with_suppresses (v : gset string) (s : state) : state :=
  {| data := data s; started := started s; thread_started := thread_started s;
     is_configured := is_configured s; default_ready := default_ready s;
     permit_list := permit_list s; reject_list := reject_list s;
     suppresses := v; initializer := initializer s;
     gotcha_suppression := gotcha_suppression s;
     is_finalizing := is_finalizing s; settings_debug := settings_debug s;
     trace := trace s |}.

Definition with_gotcha_suppression (v : bool) (s : state) : state :=
  {| data := data s; started := started s; thread_started := thread_started s;
     is_configured := is_configured s; default_ready := default_ready s;
     permit_list := permit_list s; reject_list := reject_list s;
     suppresses := suppresses s; initializer := initializer s;
     gotcha_suppression := v;
     is_finalizing := is_finalizing s; settings_debug := settings_debug s;
     trace := trace s |}.

Definition with_trace (v : list event) (s : state) : state :=
  {| data := data s; started := started s; thread_started := thread_started s;
     is_configured := is_configured s; default_ready := default_ready s;
     permit_list := permit_list s; reject_list := reject_list s;
     suppresses := suppresses s; initializer := initializer s;
     gotcha_suppression := gotcha_suppression s;
     is_finalizing := is_finalizing s; settings_debug := settings_debug s;
     trace := v |}.

Definition with_default_ready (v : bool) (s : state) : state :=
  {| data := data s; started := started s; thread_started := thread_started s;
     is_configured := is_configured s; default_ready := v;
     permit_list := permit_list s; reject_list := reject_list s;
     suppresses := suppresses s; initializer := initializer s;
     gotcha_suppression := gotcha_suppression s;
     is_finalizing := is_finalizing s; settings_debug := settings_debug s;
     trace := trace s |}.

Definition with_permit_list (v : gset string) (s : state) : state :=
  {| data := data s; started := started s; thread_started := thread_started s;
     is_configured := is_configured s; default_ready := default_ready s;
     permit_list := v; reject_list := reject_list s;
     suppresses := suppresses s; initializer := initializer s;
     gotcha_suppression := gotcha_suppression s;
     is_finalizing := is_finalizing s; settings_debug := settings_debug s;
     trace := trace s |}.

Definition with_is_finalizing (v : bool) (s : state) : state :=
  {| data := data s; started := started s; thread_started := thread_started s;
     is_configured := is_configured s; default_ready := default_ready s;
     permit_list := permit_list s; reject_list := reject_list s;
     suppresses := suppresses s; initializer := initializer s;
     gotcha_suppression := gotcha_suppression s;
     is_finalizing := v; settings_debug := settings_debug s;
     trace := trace s |}.

(** Appends one outgoing call to the trace. *)
Definition log (e : event) (s : state) : state := with_trace (trace s ++ [e]) s.

(** [get_data()[N]]; [N < Nt] is a [static_assert] in every member that
    indexes the table. *)
Definition get_slot (N : nat) (s : state) : gotcha_data :=
  default gotcha_data_init (data s !! N).

Definition update_slot (N : nat) (f : gotcha_data -> gotcha_data) (s : state) : state :=
  with_data (alter f N (data s)) s.

(** [for(auto& itr : get_data()) body], the body reading the table as the
    earlier iterations left it. *)
Definition for_each_slot (body : nat -> state -> state) (s : state) : state :=
  foldl (fun acc i => body i acc) s (seq 0 (length (data s))).

(** The state of a process that has not touched the component yet: [Nt]
    empty slots, counters at zero, [get_default_ready()] false. *)
Definition state_init (Nt : nat) : state :=
  {| data := replicate Nt gotcha_data_init; started := 0;
     thread_started := ∅; is_configured := false; default_ready := false;
     permit_list := ∅; reject_list := ∅; suppresses := ∅;
     initializer := []; gotcha_suppression := false;
     is_finalizing := false; settings_debug := false; trace := [] |}.

(** ** Suppression *)

Definition deref (r : flag_ref) (s : state) : bool :=
  match r with gotcha_suppression_get => gotcha_suppression s end.

Definition assign (r : flag_ref) (v : bool) (s : state) : state :=
  match r with gotcha_suppression_get => with_gotcha_suppression v s end.

(** Modelled from the spec: [gotcha_suppression::auto_toggle] is declared in
    [backends.hpp].  The operations run "under a suppression scope": the
    scope raises the flag if it is down and remembers whether it did; leaving
    the scope lowers the flag only in that case ("a save/restore discipline,
    not a blind set"). *)
Definition auto_toggle_enter (s : state) : bool * state :=
  if gotcha_suppression s then (false, s)
  else (true, with_gotcha_suppression true s).

Definition auto_toggle_leave (m_did_toggle : bool) (s : state) : state :=
  if m_did_toggle && gotcha_suppression s
  then with_gotcha_suppression false s else s.

(** Modelled from the spec: [toggle_suppress_on] / [toggle_suppress_off] are
    declared in [components.hpp]; they "record whether a given call actually
    changed the flag", and do nothing on a null reference. *)
Definition toggle_suppress_on (r : option flag_ref) (_did : bool) (s : state)
  : bool * state :=
  match r with
  | Some p => if deref p s then (_did, s) else (true, assign p true s)
  | None => (_did, s)
  end.

Definition toggle_suppress_off (r : option flag_ref) (_did : bool) (s : state)
  : bool * state :=
  match r with
  | Some p => if _did && deref p s then (false, assign p false s) else (_did, s)
  | None => (_did, s)
  end.

(** [itr.suppression && *itr.suppression] *)
Definition slot_suppressed (d : gotcha_data) (s : state) : bool :=
  match suppression d with Some p => deref p s | None => false end.

(** [add_global_suppression] *)
Definition add_global_suppression (func : string) (s : state) : state :=
  with_suppresses ({[ func ]} ∪ suppresses s) s.

(** ** Readiness accessors *)

Definition get_ready (s : state) : list (bool * bool) :=
  (fun d => (filled d, ready d)) <$> data s.

Definition set_ready (val : bool) (s : state) : list (bool * bool) * state :=
  let s := with_data ((fun d => if filled d then put_ready val d else d) <$> data s) s in
  (get_ready s, s).

(** [set_ready(const std::array<bool, Nt>&)]: [values] has one entry per
    slot. *)
Definition set_ready_values (values : list bool) (s : state)
  : list (bool * bool) * state :=
  let upd i d :=
    if filled d
    then match values !! i with Some v => put_ready v d | None => d end
    else d in
  let s := with_data (imap upd (data s)) s in
  (get_ready s, s).

(** ** Binding table, symbol filter and activation counters *)

Section Component.

(** [std::is_same<operator_type, void>::value]: true for the wrapping
    instantiations, false for the replacing ones. *)
Variable void_operator : bool.

(** [tim::demangle], defined outside the file. *)
Variable demangle : string -> string.

(** *** Symbol filter *)

Definition mpi_reject_list : list string :=
  [ "MPI_Pcontrol"; "MPI_T_init_thread"; "MPI_Comm_split"; "MPI_Abort";
    "MPI_Comm_split_type" ].

Definition tofortran (_fort : string) : string :=
  let _fort := StdString.map StdString.tolower _fort in
  match StdString.back _fort with
  | Some "_"%char => _fort
  | _ => _fort ++ "_"
  end.

(** [if(settings::debug()) printf(...)] *)
Definition debug_printf (e : event) (s : state) : state :=
  if settings_debug s then log e s else s.

(** The guarded loop over [mpi_reject_list]. *)
Definition mpi_rejected (_func : string) : bool :=
  void_operator
  && (StdString.contains "MPI_" _func || StdString.contains "mpi_" _func)
  && existsb (fun itr => String.eqb _func itr || String.eqb _func (tofortran itr))
             mpi_reject_list.

Definition is_permitted (_func : string) (s : state) : bool * state :=
  if mpi_rejected _func
  then (false, debug_printf (printf_skipping _func) s)
  else if bool_decide (_func ∈ reject_list s)
  then (false, debug_printf (printf_in_reject_list _func) s)
  else if negb (bool_decide (permit_list s = ∅))
          && bool_decide (_func ∉ permit_list s)
  then (false, debug_printf (printf_not_in_permit_list _func) s)
  else (true, s).

(** *** [revert<N>] *)

Definition revert (N : nat) (s : state) : bool * state :=
  let '(suppress_lock, s) := auto_toggle_enter s in
  let _data := get_slot N s in
  let s :=
    if filled _data && is_active _data then
      let s := update_slot N (put_is_active false) s in
      let s := log (backend_set_priority (tool_id _data) (-1)) s in
      let s := log (check_error N "get priority") s in
      if bool_decide (tool_id _data ∈ suppresses s)
      then update_slot N (put_ready false) s
      else update_slot N (put_ready (default_ready s)) s
    else s in
  (filled (get_slot N s), auto_toggle_leave suppress_lock s).

(** *** [construct<N, Ret, Args...>] *)

(** [while(_label.find("//") != npos) _label.erase(_label.find("//"), 1)];
    every round removes one character, so [String.length _label] rounds
    are enough. *)
Fixpoint erase_double_slashes (rounds : nat) (_label : string) : string :=
  match rounds with
  | O => _label
  | S rounds' =>
      match StdString.find "//" _label with
      | Some pos => erase_double_slashes rounds' (StdString.erase1 pos _label)
      | None => _label
      end
  end.

Definition prefixed_label (_tool _label : string) : string :=
  if negb (StdString.empty _tool) && StdString.find_ne_0 (_tool ++ "/") _label
  then let _label := _tool ++ "/" ++ _label in
       erase_double_slashes (String.length _label) _label
  else _label.

(** The body of [if(!_data.filled) { ... }]. *)
Definition construct_fill (N : nat) (_func : string) (_priority : Z)
    (_tool : string) (s : state) : state :=
  let _label := demangle _func in
  let s := log (add_hash_id _func) s in
  let s := log (add_hash_id _label) s in
  let _label := prefixed_label _tool _label in
  let s := log (add_hash_id _label) s in
  let suppressed := bool_decide (_func ∈ suppresses s) in
  let s := update_slot N (fun d =>
    {| filled := true;
       priority := _priority;
       tool_id := _label;
       wrap_id := _func;
       ready := if suppressed then false else default_ready s;
       suppression :=
         if suppressed then Some gotcha_suppression_get else suppression d;
       constructor := constructor_construct _func _priority _tool;
       destructor := destructor_revert;
       binding := Some _func;
       is_active := is_active d; is_finalized := is_finalized d;
       debug := debug d |}) s in
  let s := log (backend_wrap N _func _label) s in
  log (check_error N "binding") s.

(** The body of [if(!_data.is_active) { ... }]. *)
Definition construct_activate (N : nat) (s : state) : state :=
  let s := update_slot N (put_is_active true) s in
  let _data := get_slot N s in
  let s := log (backend_set_priority (tool_id _data) (priority _data)) s in
  log (check_error N "set priority") s.

Definition construct (N : nat) (_func : string) (_priority : Z)
    (_tool : string) (s : state) : bool * state :=
  if StdString.empty _func then (false, s) else
  let '(suppress_lock, s) := auto_toggle_enter s in
  let s := log init_storage s in
  let '(permitted, s) := is_permitted _func s in
  if negb permitted then (false, auto_toggle_leave suppress_lock s) else
  let s := if debug (get_slot N s) then s else update_slot N (put_debug true) s in
  let s := if filled (get_slot N s) then s
           else construct_fill N _func _priority _tool s in
  let s := if is_active (get_slot N s) then s else construct_activate N s in
  let s := if ready (get_slot N s) then s else snd (revert N s) in
  (filled (get_slot N s), auto_toggle_leave suppress_lock s).

(** [configure<N, Ret, Args...>(const std::string&, int, const std::string&)] *)
Definition configure_symbol := construct.

(** [configure<N, Ret, Args...>(const std::vector<std::string>&, ...)] *)
Fixpoint configure_symbols (N : nat) (_funcs : list string) (_priority : Z)
    (_tool : string) (s : state) : state :=
  match _funcs with
  | [] => s
  | itr :: rest =>
      let '(ret, s) := construct N itr _priority _tool s in
      if ret then s else configure_symbols N rest _priority _tool s
  end.

(** [instrument<N, Ret, Args...>::generate] and [gotcha_factory] *)
Definition generate (N : nat) (_func _tool : string) (_priority : Z)
    (s : state) : state :=
  snd (configure_symbol N _func _priority _tool s).

Definition gotcha_factory := generate.

(** *** Slot closures *)

Definition invoke_constructor (N : nat) (s : state) : state :=
  let s := log (call_constructor N) s in
  match constructor (get_slot N s) with
  | constructor_default => s
  | constructor_construct _func _priority _tool =>
      snd (construct N _func _priority _tool s)
  end.

Definition invoke_destructor (N : nat) (s : state) : state :=
  let s := log (call_destructor N) s in
  match destructor (get_slot N s) with
  | destructor_default => s
  | destructor_revert => snd (revert N s)
  end.

(** *** [configure()], [disable()], [global_finalize()], [thread_init()] *)

(** The callable behind [get_initializer()] is user code; the state holds
    the [configure<N, ...>(func, priority, tool)] requests it issues. *)
Definition run_initializer (s : state) : state :=
  foldl (fun acc '(N, _func, _priority, _tool) =>
           snd (configure_symbol N _func _priority _tool acc))
        (log call_initializer s) (initializer s).

Definition configure (s : state) : state :=
  if is_configured s then s
  else run_initializer (with_is_configured true s).

Definition disable (s : state) : state :=
  if is_configured s then
    for_each_slot (fun i acc =>
      if is_finalized (get_slot i acc) then acc
      else invoke_destructor i (update_slot i (put_is_finalized true) acc))
      (with_is_configured false s)
  else s.

Definition get_thread_started (tid : nat) (s : state) : Z :=
  default 0%Z (thread_started s !! tid).

Definition set_thread_started (tid : nat) (v : Z) (s : state) : state :=
  with_thread_started (<[tid := v]> (thread_started s)) s.

(** [while(c > 0) --c] *)
Definition drain (c : Z) : Z := if (0 <? c)%Z then 0%Z else c.

Definition global_finalize (tid : nat) (s : state) : state :=
  let s := with_started (drain (started s)) s in
  let s := set_thread_started tid (drain (get_thread_started tid s)) s in
  disable s.

Definition thread_init (s : state) : state :=
  with_data ((fun d => put_ready (filled d && default_ready s) d) <$> data s) s.

(** *** [start()] and [stop()], called on thread [tid] *)

Definition start (tid : nat) (s : state) : state :=
  if is_finalizing s then s else
  let _n := started s in
  let s := with_started (_n + 1)%Z s in
  let _t := get_thread_started tid s in
  let s := set_thread_started tid (_t + 1)%Z s in
  let s := if (_t =? 0)%Z && negb (is_configured s) then configure s else s in
  let s :=
    if (_n =? 0)%Z then
      for_each_slot (fun i acc =>
        if is_finalized (get_slot i acc) then acc else invoke_constructor i acc)
        (configure s)
    else s in
  if (_t =? 0)%Z
  then with_data ((fun d => put_ready (filled d) d) <$> data s) s
  else s.

Definition stop (tid : nat) (s : state) : state :=
  let _n := (started s - 1)%Z in
  let s := with_started _n s in
  let _t := (get_thread_started tid s - 1)%Z in
  let s := set_thread_started tid _t s in
  let s := if (_t =? 0)%Z
           then with_data (put_ready false <$> data s) s else s in
  if (_n =? 0)%Z then
    for_each_slot (fun i acc =>
      if is_finalized (get_slot i acc) then acc else invoke_destructor i acc) s
  else s.

(** *** [get_info()] *)

Definition b2n (b : bool) : nat := if b then 1 else 0.

(** [_info.at(k) += v] *)
Definition at_add (k v : nat) (_info : list nat) : list nat :=
  alter (fun c => c + v) k _info.

Definition get_info (s : state) : list nat :=
  foldl (fun _info itr =>
           let _info := at_add 0 (b2n (ready itr)) _info in
           let _info := at_add 1 (b2n (filled itr)) _info in
           let _info := at_add 2 (b2n (is_active itr)) _info in
           let _info := at_add 3 (b2n (is_finalized itr)) _info in
           at_add 4 (b2n (match suppression itr with
                          | Some p => negb (deref p s)
                          | None => false
                          end)) _info)
        (replicate 5 0) (data s).

End Component.

(** ** Call dispatcher *)

(** The function-local statics of [wrap] / [wrap_void]. *)
Record wrap_statics : Set := mk_wrap_statics {
  _protect_tls_alloc : bool;
  _recursive         : bool
}.

Section Dispatcher.

(** Whether the build defines [TIMEMORY_USE_GOTCHA]. *)
Variable TIMEMORY_USE_GOTCHA : bool.

(** The wrapped function acts on a world [W] of its own; [Ret_default] is
    [Ret{}]. *)
Variables (W Args Ret : Type) (Ret_default : Ret).

Record call_result (R : Type) : Type := mk_call_result {
  returned : R;
  statics  : wrap_statics;
  engine   : state;
  world    : W
}.
Arguments mk_call_result {R}.

(** Calling the wrapped function: [_func] applied to [_args...]. *)
Definition call_through {R : Type} (_func : Args -> W -> R * W) (_args : Args)
    (st : wrap_statics) (s : state) (w : W) : call_result R :=
  let '(r, w) := _func _args w in mk_call_result r st s w.

(** The diagnostic of the not-ready / suppressed branch, with the
    thread-local [_recursive] raised around it. *)
Definition not_ready_diagnostic (_data : gotcha_data) (_suppress : bool)
    (st : wrap_statics) (s : state) : wrap_statics * state :=
  if negb (_recursive st) && debug _data && settings_debug s then
    let s := log (fprintf_not_ready (tool_id _data) (ready _data) _suppress) s in
    ({| _protect_tls_alloc := _protect_tls_alloc st; _recursive := false |}, s)
  else (st, s).

(** The instrumented path up to the call of the wrapped function. *)
Definition instrument_enter (N : nat) (s : state) : bool * bool * state :=
  let _data := get_slot N s in
  let s := update_slot N (put_ready false) s in
  let '(did_data_toggle, s) := toggle_suppress_on (suppression _data) false s in
  let '(did_glob_toggle, s) := toggle_suppress_on (Some gotcha_suppression_get) false s in
  let s := log (bundle N (bundle_ctor (tool_id _data))) s in
  let s := log (bundle N bundle_construct) s in
  let s := log (bundle N bundle_start) s in
  let s := log (bundle N bundle_store) s in
  let s := log (bundle N bundle_audit_incoming) s in
  let '(did_glob_toggle, s) :=
    toggle_suppress_off (Some gotcha_suppression_get) did_glob_toggle s in
  (did_data_toggle, did_glob_toggle, update_slot N (put_ready true) s).

(** The instrumented path after the wrapped function has returned. *)
Definition instrument_leave (N : nat) (did_data_toggle did_glob_toggle : bool)
    (s : state) : state :=
  let _data := get_slot N s in
  let s := update_slot N (put_ready false) s in
  let '(did_glob_toggle, s) :=
    toggle_suppress_on (Some gotcha_suppression_get) did_glob_toggle s in
  let s := log (bundle N bundle_audit_outgoing) s in
  let s := log (bundle N bundle_stop) s in
  let '(did_glob_toggle, s) :=
    toggle_suppress_off (Some gotcha_suppression_get) did_glob_toggle s in
  let '(did_data_toggle, s) :=
    toggle_suppress_off (suppression _data) did_data_toggle s in
  update_slot N (put_ready true) s.

(** [wrap<N, Ret, Args...>]; [_func] is what
    [gotcha_get_wrappee(_data.wrappee)] resolves to, [None] for a null
    pointer. *)
Definition wrap (N : nat) (_func : option (Args -> W -> Ret * W))
    (_args : Args) (st : wrap_statics) (s : state) (w : W) : call_result Ret :=
  if negb TIMEMORY_USE_GOTCHA
  then mk_call_result Ret_default st (log (print_here "should not be here!") s) w
  else
  let _data := get_slot N s in
  match _func with
  | None =>
      mk_call_result Ret_default st
        (log (print_here ("nullptr to original function! wrappee: "
                          ++ tool_id _data)) s) w
  | Some f =>
      if is_finalized _data || _protect_tls_alloc st
      then call_through f _args st s w
      else
      let _suppress := gotcha_suppression s || slot_suppressed _data s in
      let st := {| _protect_tls_alloc := false; _recursive := _recursive st |} in
      if negb (ready _data) || _suppress then
        let '(st, s) := not_ready_diagnostic _data _suppress st s in
        call_through f _args st s w
      else
        let '(did_data_toggle, did_glob_toggle, s) := instrument_enter N s in
        let '(_ret, w) := f _args w in
        let s := instrument_leave N did_data_toggle did_glob_toggle s in
        mk_call_result _ret st s w
  end.

(** [wrap_void<N, Args...>] *)
Definition wrap_void (N : nat) (_func : option (Args -> W -> unit * W))
    (_args : Args) (st : wrap_statics) (s : state) (w : W) : call_result unit :=
  if negb TIMEMORY_USE_GOTCHA
  then mk_call_result tt st (log (print_here "should not be here!") s) w
  else
  let _data := get_slot N s in
  match _func with
  | None =>
      mk_call_result tt st
        (log (print_here ("nullptr to original function! wrappee: "
                          ++ tool_id _data)) s) w
  | Some f =>
      if is_finalized _data || _protect_tls_alloc st
      then call_through f _args st s w
      else
      let _suppress := gotcha_suppression s || slot_suppressed _data s in
      let st := {| _protect_tls_alloc := false; _recursive := _recursive st |} in
      if negb (ready _data) || _suppress then
        let '(st, s) := not_ready_diagnostic _data _suppress st s in
        call_through f _args st s w
      else
        let '(did_data_toggle, did_glob_toggle, s) := instrument_enter N s in
        let '(_, w) := f _args w in
        let s := instrument_leave N did_data_toggle did_glob_toggle s in
        mk_call_result tt st s w
  end.

(** The shape of a call that went straight to the wrapped function. *)
Definition passed_through {R : Type} (N : nat) (f : Args -> W -> R * W)
    (_args : Args) (st : wrap_statics) (s : state) (w : W)
    (r : call_result R) : Prop :=
  (returned R r, world R r) = f _args w
  /\ statics R r = st
  /\ (engine R r = s
      \/ exists _suppress,
           engine R r = log (fprintf_not_ready (tool_id (get_slot N s))
                                (ready (get_slot N s)) _suppress) s).

End Dispatcher.

(** ** Observations used in the statements *)

(** [tim::demangle] on a name that is not a mangled C++ name, such as the C
    symbols [malloc] and [free]: the name itself. *)
Definition demangle_plain (s : string) : string := s.


(** Number of slots of a table that satisfy [p]. *)
Fixpoint count_slots (p : gotcha_data -> bool) (l : list gotcha_data) : nat :=
  match l with
  | [] => 0
  | d :: l' => b2n (p d) + count_slots p l'
  end.

(** Number of events of a trace that satisfy [p]. *)
Fixpoint count_events (p : event -> bool) (tr : list event) : nat :=
  match tr with
  | [] => 0
  | e :: tr' => b2n (p e) + count_events p tr'
  end.

Definition is_backend_wrap (N : nat) (e : event) : bool :=
  match e with backend_wrap M _ _ => Nat.eqb M N | _ => false end.

Definition is_call_destructor (N : nat) (e : event) : bool :=
  match e with call_destructor M => Nat.eqb M N | _ => false end.

Definition is_bundle (e : event) : bool :=
  match e with bundle _ _ => true | _ => false end.

(** How often the backend was asked to install the binding of slot [N]. *)
Definition installs (N : nat) (s : state) : nat :=
  count_events (is_backend_wrap N) (trace s).

(** How often the destructor closure of slot [N] was invoked. *)
Definition destructor_calls (N : nat) (s : state) : nat :=
  count_events (is_call_destructor N) (trace s).

(** The slot holds a suppression reference whose flag is down: the test of
    the fifth counter of [get_info]. *)
Definition suppression_lowered (s : state) (d : gotcha_data) : bool :=
  match suppression d with Some p => negb (deref p s) | None => false end.

(** [start()] on each of the threads [tids], in order; likewise [stop()]. *)
Definition starts (void_operator : bool) (demangle : string -> string)
    (tids : list nat) (s : state) : state :=
  foldl (fun acc tid => start void_operator demangle tid acc) s tids.

Definition stops (tids : list nat) (s : state) : state :=
  foldl (fun acc tid => stop tid acc) s tids.

(** [frame s s']: the step from [s] to [s'] changed neither [started], nor
    the finalizing flag of the storage, nor the filter and suppression
    configuration, nor the size of the table, nor any [is_finalized] flag. *)
Record frame (s s' : state) : Prop := mk_frame {
  frame_started       : started s' = started s;
  frame_is_finalizing : is_finalizing s' = is_finalizing s;
  frame_default_ready : default_ready s' = default_ready s;
  frame_permit_list   : permit_list s' = permit_list s;
  frame_reject_list   : reject_list s' = reject_list s;
  frame_suppresses    : suppresses s' = suppresses s;
  frame_length        : length (data s') = length (data s);
  frame_is_finalized  :
    forall i, is_finalized (get_slot i s') = is_finalized (get_slot i s)
}.

(** [keeps s s']: a [frame] step that, in addition, invoked no destructor
    closure. *)
Definition keeps (s s' : state) : Prop :=
  frame s s' /\ forall n, destructor_calls n s' = destructor_calls n s.

(** What a filled slot is bound to. *)
Definition bound_configuration (d : gotcha_data) :=
  (filled d, priority d, tool_id d, wrap_id d,
   constructor d, destructor d, suppression d, binding d).

(** [binds s s']: every slot that is filled in [s] is bound to the same
    configuration in [s']. *)
Definition binds (s s' : state) : Prop :=
  forall i, filled (get_slot i s) = true ->
    bound_configuration (get_slot i s') = bound_configuration (get_slot i s).

(** ** The replacing dispatcher *)

Section Replacer.

Variable TIMEMORY_USE_GOTCHA : bool.

Variables (W Args Ret : Type) (Ret_default : Ret).

(** [invoke<wrap_type>], declared outside the file: what the replacing
    component makes of the original function and the arguments. *)
Variable invoke_wrap_type :
  forall R : Type, (Args -> W -> R * W) -> Args -> W -> R * W.

(** [bundle_constructed] is whether the function-local [static wrap_type
    _bundle] has been constructed. *)
Record replace_result (R : Type) : Type := mk_replace_result {
  replaced_returned  : R;
  bundle_constructed : bool;
  replaced_engine    : state;
  replaced_world     : W
}.
Arguments mk_replace_result {R}.

(** [replace_func<N, Ret, Args...>]; the function dereferences the resolved
    pointer without a null test, so [_func] is a function here. *)
Definition replace_func (N : nat) (_func : Args -> W -> Ret * W)
    (_args : Args) (_bundle : bool) (s : state) (w : W) : replace_result Ret :=
  if negb TIMEMORY_USE_GOTCHA
  then mk_replace_result Ret_default _bundle
         (log (print_here "should not be here!") s) w
  else
  let _data := get_slot N s in
  if negb (ready _data)
  then let '(r, w) := _func _args w in mk_replace_result r _bundle s w
  else
    let s := update_slot N (put_ready false) s in
    let s := if _bundle then s
             else log (bundle N (bundle_ctor (tool_id _data))) s in
    let '(_ret, w) := invoke_wrap_type Ret _func _args w in
    let s := update_slot N (put_ready true) s in
    mk_replace_result _ret true s w.

(** [replace_void_func<N, Args...>] *)
Definition replace_void_func (N : nat) (_func : Args -> W -> unit * W)
    (_args : Args) (_bundle : bool) (s : state) (w : W) : replace_result unit :=
  if negb TIMEMORY_USE_GOTCHA
  then mk_replace_result tt _bundle
         (log (print_here "should not be here!") s) w
  else
  let _data := get_slot N s in
  if negb (ready _data)
  then let '(_, w) := _func _args w in mk_replace_result tt _bundle s w
  else
    let s := update_slot N (put_ready false) s in
    let s := if _bundle then s
             else log (bundle N (bundle_ctor (tool_id _data))) s in
    let '(_, w) := invoke_wrap_type unit _func _args w in
    let s := update_slot N (put_ready true) s in
    mk_replace_result tt true s w.

End Replacer.

(** ** Histories of calls *)

(** The calls a user of the component can make on the binding table and the
    activation counters. *)
Inductive operation : Type :=
| op_construct (N : nat) (_func : string) (_priority : Z) (_tool : string)
| op_configure_symbols (N : nat) (_funcs : list string) (_priority : Z)
    (_tool : string)
| op_revert (N : nat)
| op_add_global_suppression (func : string)
| op_default_ready (v : bool)          (* [get_default_ready() = v] *)
| op_set_ready (val : bool)
| op_set_ready_values (values : list bool)
| op_configure
| op_disable
| op_global_finalize (tid : nat)
| op_thread_init
| op_start (tid : nat)
| op_stop (tid : nat).

Definition run (void_operator : bool) (demangle : string -> string)
    (o : operation) (s : state) : state :=
  match o with
  | op_construct N f p t => snd (construct void_operator demangle N f p t s)
  | op_configure_symbols N fs p t =>
      configure_symbols void_operator demangle N fs p t s
  | op_revert N => snd (revert N s)
  | op_add_global_suppression f => add_global_suppression f s
  | op_default_ready v => with_default_ready v s
  | op_set_ready val => snd (set_ready val s)
  | op_set_ready_values values => snd (set_ready_values values s)
  | op_configure => configure void_operator demangle s
  | op_disable => disable s
  | op_global_finalize tid => global_finalize tid s
  | op_thread_init => thread_init s
  | op_start tid => start void_operator demangle tid s
  | op_stop tid => stop tid s
  end.

Definition runs (void_operator : bool) (demangle : string -> string)
    (ops : list operation) (s : state) : state :=
  foldl (fun acc o => run void_operator demangle o acc) s ops.

(** A table of empty slots on which nothing has been called yet; the
    settings are arbitrary. *)
Definition pristine (s : state) : Prop :=
  (forall i d, data s !! i = Some d -> d = gotcha_data_init) /\ trace s = [].

(** What the code keeps true of every slot: an empty slot is neither ready
    nor active and holds the initial closures; a filled slot holds the
    closures that [construct] records for the slot's own symbol and
    priority, the binding of that symbol, and the label derived from it. *)
Definition slot_wf (demangle : string -> string) (d : gotcha_data) : Prop :=
  if filled d
  then StdString.empty (wrap_id d) = false
       /\ destructor d = destructor_revert
       /\ binding d = Some (wrap_id d)
       /\ exists _tool,
            constructor d = constructor_construct (wrap_id d) (priority d) _tool
            /\ tool_id d = prefixed_label _tool (demangle (wrap_id d))
  else ready d = false
       /\ is_active d = false
       /\ constructor d = constructor_default
       /\ destructor d = destructor_default
       /\ suppression d = None
       /\ binding d = None.

(** Every slot is well formed and the backend was asked to install a
    binding for exactly the filled slots, once each. *)
Definition table_ok (demangle : string -> string) (s : state) : Prop :=
  forall i d, data s !! i = Some d ->
    slot_wf demangle d /\ installs i s = b2n (filled d).

(** What [revert<N>] makes of slot [N]. *)
Definition revert_slot_of (_default_ready : bool) (_suppresses : gset string)
    (d : gotcha_data) : gotcha_data :=
  if filled d && is_active d
  then put_ready (if bool_decide (tool_id d ∈ _suppresses) then false
                  else _default_ready)
         (put_is_active false d)
  else d.

(** What invoking the destructor closure of a slot makes of it. *)
Definition destructor_slot_of (_default_ready : bool)
    (_suppresses : gset string) (d : gotcha_data) : gotcha_data :=
  match destructor d with
  | destructor_default => d
  | destructor_revert => revert_slot_of _default_ready _suppresses d
  end.

(** Nothing is ready and nothing is active. *)
Definition quiescent (s : state) : Prop :=
  forall i, ready (get_slot i s) = false /\ is_active (get_slot i s) = false.

(** Number of times the initializer was run. *)
Definition initializer_calls (s : state) : nat :=
  count_events (fun e => match e with call_initializer => true | _ => false end)
    (trace s).

(** The bundle calls of one instrumented [wrap] / [wrap_void] call on slot
    [N], in program order. *)
Definition instrumented_calls (N : nat) (_tool_id : string) : list event :=
  [ bundle N (bundle_ctor _tool_id); bundle N bundle_construct;
    bundle N bundle_start; bundle N bundle_store;
    bundle N bundle_audit_incoming; bundle N bundle_audit_outgoing;
    bundle N bundle_stop ].

(** A function on slots that leaves the bound configuration and [is_active]
    alone and does not make an empty slot ready. *)
Definition gentle (f : gotcha_data -> gotcha_data) : Prop :=
  forall d, bound_configuration (f d) = bound_configuration d
            /\ is_active (f d) = is_active d
            /\ (filled d = false -> ready d = false -> ready (f d) = false).

(** [same_revert_settings s s']: the step kept the settings that [revert]
    reads, the size of the table, the configuration flag and the counters. *)
Definition same_revert_settings (s s' : state) : Prop :=
  default_ready s' = default_ready s
  /\ suppresses s' = suppresses s
  /\ length (data s') = length (data s)
  /\ is_configured s' = is_configured s
  /\ started s' = started s
  /\ thread_started s' = thread_started s.

(** What [disable()] makes of one slot. *)
Definition disable_slot_of (_default_ready : bool) (_suppresses : gset string)
    (d : gotcha_data) : gotcha_data :=
  if is_finalized d then d
  else destructor_slot_of _default_ready _suppresses (put_is_finalized true d).

(** What the outermost [stop()] makes of one slot; [last_on_thread] tells
    whether the calling thread's counter returns to zero. *)
Definition stop_slot_of (last_on_thread : bool) (_default_ready : bool)
    (_suppresses : gset string) (d : gotcha_data) : gotcha_data :=
  let d := if last_on_thread then put_ready false d else d in
  if is_finalized d then d
  else destructor_slot_of _default_ready _suppresses d.

(** The event of invoking the constructor closure of slot [N]. *)
Definition is_call_constructor (N : nat) (e : event) : bool :=
  match e with call_constructor M => Nat.eqb M N | _ => false end.

(** How often the constructor closure of slot [N] was invoked. *)
Definition constructor_calls (N : nat) (s : state) : nat :=
  count_events (is_call_constructor N) (trace s).

(** The calls that [construct] and [revert] make: to the storage, to the
    backend, and diagnostics. *)
Definition binding_event (e : event) : bool :=
  match e with
  | init_storage | add_hash_id _ | backend_wrap _ _ _
  | backend_set_priority _ _ | check_error _ _
  | printf_skipping _ | printf_in_reject_list _
  | printf_not_in_permit_list _ => true
  | _ => false
  end.

(** * Properties *)

(** ** Elementary facts about the state accessors *)

Lemma with_gotcha_suppression_same (s : state) :
  with_gotcha_suppression (gotcha_suppression s) s = s.
Proof. by destruct s. Qed.

Lemma with_data_same (s : state) : with_data (data s) s = s.
Proof. by destruct s. Qed.

Lemma auto_toggle_leave_enter (s : state) :
  auto_toggle_leave (fst (auto_toggle_enter s)) (snd (auto_toggle_enter s)) = s.
Proof.
  unfold auto_toggle_enter, auto_toggle_leave.
  destruct (gotcha_suppression s) eqn:E; simpl; [done|].
  destruct s; simpl in *; by subst.
Qed.

Lemma get_slot_update_slot_eq N f s :
  N < length (data s) -> get_slot N (update_slot N f s) = f (get_slot N s).
Proof.
  intros HN. unfold get_slot, update_slot; simpl.
  rewrite list_lookup_alter_eq.
  destruct (lookup_lt_is_Some_2 _ _ HN) as [d ->]. done.
Qed.

Lemma get_slot_update_slot_ne N M f s :
  N <> M -> get_slot M (update_slot N f s) = get_slot M s.
Proof.
  intros HN. unfold get_slot, update_slot; simpl.
  by rewrite list_lookup_alter_ne.
Qed.

Lemma update_slot_out_of_range N f s :
  length (data s) <= N -> update_slot N f s = s.
Proof.
  intros HN. unfold update_slot.
  replace (alter f N (data s)) with (data s); [apply with_data_same|].
  apply list_eq. intros i. destruct (decide (N = i)) as [<-|Hne].
  - rewrite list_lookup_alter_eq, (lookup_ge_None_2 _ _ HN). done.
  - by rewrite list_lookup_alter_ne.
Qed.

Lemma get_slot_out_of_range N s :
  length (data s) <= N -> get_slot N s = gotcha_data_init.
Proof. intros HN. unfold get_slot. by rewrite (lookup_ge_None_2 _ _ HN). Qed.

Lemma length_data_update_slot N f s :
  length (data (update_slot N f s)) = length (data s).
Proof. unfold update_slot; simpl. apply length_alter. Qed.

Lemma get_slot_auto_toggle_enter N s :
  get_slot N (snd (auto_toggle_enter s)) = get_slot N s.
Proof. unfold auto_toggle_enter. by destruct (gotcha_suppression s). Qed.

Lemma get_slot_auto_toggle_leave N b s :
  get_slot N (auto_toggle_leave b s) = get_slot N s.
Proof.
  unfold auto_toggle_leave. by destruct (b && gotcha_suppression s).
Qed.

(** ** [revert<N>] *)

Lemma revert_fst N s :
  fst (revert N s) = filled (get_slot N (snd (revert N s))).
Proof.
  unfold revert. destruct (auto_toggle_enter s) as [lk s']. simpl.
  by rewrite get_slot_auto_toggle_leave.
Qed.

Lemma revert_inactive N s :
  filled (get_slot N s) && is_active (get_slot N s) = false ->
  revert N s = (filled (get_slot N s), s).
Proof.
  intros H. unfold revert.
  pose proof (auto_toggle_leave_enter s) as Hle.
  pose proof (get_slot_auto_toggle_enter N s) as Hg.
  destruct (auto_toggle_enter s) as [lk s']. simpl in *.
  rewrite Hg, H, Hg, Hle. done.
Qed.

Lemma revert_slot N s :
  N < length (data s) ->
  filled (get_slot N s) && is_active (get_slot N s) = true ->
  get_slot N (snd (revert N s)) =
    put_ready (if bool_decide (tool_id (get_slot N s) ∈ suppresses s)
               then false else default_ready s)
      (put_is_active false (get_slot N s)).
Proof.
  intros HN H. unfold revert.
  pose proof (get_slot_auto_toggle_enter N s) as Hg.
  assert (length (data (snd (auto_toggle_enter s))) = length (data s)
          /\ suppresses (snd (auto_toggle_enter s)) = suppresses s
          /\ default_ready (snd (auto_toggle_enter s)) = default_ready s)
    as (Hl & Hs & Hd).
  { unfold auto_toggle_enter. by destruct (gotcha_suppression s). }
  destruct (auto_toggle_enter s) as [lk s']. simpl in *.
  rewrite Hg, H, get_slot_auto_toggle_leave. rewrite <- Hs, <- Hd, <- Hg.
  destruct (bool_decide _);
    (unfold log; simpl; unfold get_slot, update_slot; simpl;
     rewrite !list_lookup_alter_eq;
     destruct (lookup_lt_is_Some_2 (data s') N ltac:(lia)) as [d ->]; done).
Qed.

Lemma revert_settles N s :
  filled (get_slot N (snd (revert N s)))
  && is_active (get_slot N (snd (revert N s))) = false.
Proof.
  destruct (filled (get_slot N s) && is_active (get_slot N s)) eqn:H.
  - destruct (decide (N < length (data s))) as [HN|HN].
    + rewrite (revert_slot N s HN H). simpl. apply andb_false_r.
    + rewrite get_slot_out_of_range in H by lia. done.
  - by rewrite (revert_inactive N s H).
Qed.

(** C8. [revert] is idempotent: a second [revert] directly after the first
    one returns the same value and leaves the state (slot table, flags and
    backend calls made) exactly as the first one left it; on a slot that is
    not active [revert] changes nothing and returns the slot's [filled]. *)
Theorem revert_idempotent N s :
  revert N (snd (revert N s)) = revert N s
  /\ (is_active (get_slot N s) = false ->
      revert N s = (filled (get_slot N s), s)).
Proof.
  split.
  - rewrite (revert_inactive N _ (revert_settles N s)).
    rewrite <- revert_fst. by destruct (revert N s).
  - intros H. apply revert_inactive. rewrite H. apply andb_false_r.
Qed.

(** An instance: the slot that [construct] has just filled and reverted. *)
Lemma revert_idempotent_witness :
  let s := snd (construct true demangle_plain 0 "malloc" 0 "" (state_init 1)) in
  is_active (get_slot 0 s) = false
  /\ revert 0 s = (filled (get_slot 0 s), s).
Proof.
  intros s. split; [reflexivity|].
  apply (proj2 (revert_idempotent 0 s)). reflexivity.
Defined.

(** ** [construct] on an empty symbol *)

(** C7. [construct] (and [configure], which forwards to it) called with an
    empty symbol name returns false and leaves the whole engine state as it
    was: no slot field changes, and nothing is sent to the filter, the
    storage or the backend. *)
Theorem construct_empty_symbol void_operator demangle N _priority _tool s :
  construct void_operator demangle N "" _priority _tool s = (false, s)
  /\ configure_symbol void_operator demangle N "" _priority _tool s = (false, s).
Proof. split; reflexivity. Qed.

(** ** Call dispatcher *)

Section DispatcherFacts.

Variables (W Args Ret : Type) (Ret_default : Ret).

(** C5. A wrapped call whose resolved function pointer is null returns
    [Ret{}] (or just returns, for [wrap_void]); the wrapped function's world
    and the function-local statics are untouched, and the engine state
    changes by exactly one [TIMEMORY_PRINT_HERE] line: no slot field is
    written and no bundle operation runs. *)
Theorem wrap_null_wrappee (TIMEMORY_USE_GOTCHA : bool) N (_args : Args) st s (w : W) :
  let msg := if TIMEMORY_USE_GOTCHA
             then "nullptr to original function! wrappee: "
                  ++ tool_id (get_slot N s)
             else "should not be here!" in
  wrap TIMEMORY_USE_GOTCHA W Args Ret Ret_default N None _args st s w
    = mk_call_result W Ret Ret_default st (log (print_here msg) s) w
  /\ wrap_void TIMEMORY_USE_GOTCHA W Args N None _args st s w
    = mk_call_result W unit tt st (log (print_here msg) s) w.
Proof. destruct TIMEMORY_USE_GOTCHA; split; reflexivity. Qed.

Lemma not_ready_diagnostic_statics _data _suppress st s :
  _protect_tls_alloc st = false ->
  fst (not_ready_diagnostic _data _suppress
         {| _protect_tls_alloc := false; _recursive := _recursive st |} s) = st.
Proof.
  intros H. unfold not_ready_diagnostic; simpl.
  destruct st as [p r]; simpl in *; subst.
  by destruct (negb r && debug _data && settings_debug s) eqn:E;
    simpl; [destruct r|].
Qed.

Lemma not_ready_diagnostic_engine _data _suppress st s :
  let s' := snd (not_ready_diagnostic _data _suppress st s) in
  s' = s
  \/ s' = log (fprintf_not_ready (tool_id _data) (ready _data) _suppress) s.
Proof.
  unfold not_ready_diagnostic.
  destruct (negb (_recursive st) && debug _data && settings_debug s);
    simpl; auto.
Qed.

Lemma call_through_passed {R : Type} N (f : Args -> W -> R * W) _args st s w :
  passed_through W Args N f _args st s w (call_through W Args f _args st s w).
Proof.
  unfold passed_through, call_through. destruct (f _args w) as [r w'].
  simpl. auto.
Qed.

(** C10. When the slot is not finalized, the resolved pointer is not null and
    the slot is not ready or suppression is in effect, [wrap] and [wrap_void]
    call the wrapped function once on the original arguments and hand back
    its result; the statics end as they started and the engine state is
    unchanged except for, at most, the one debug line of that branch, so no
    slot field is written. *)
Theorem wrap_passthrough_frame N (f : Args -> W -> Ret * W)
    (g : Args -> W -> unit * W) (_args : Args) st s (w : W) :
  is_finalized (get_slot N s) = false ->
  ready (get_slot N s) = false
  \/ gotcha_suppression s || slot_suppressed (get_slot N s) s = true ->
  passed_through W Args N f _args st s w
    (wrap true W Args Ret Ret_default N (Some f) _args st s w)
  /\ passed_through W Args N g _args st s w
    (wrap_void true W Args N (Some g) _args st s w)
  /\ data (engine W Ret (wrap true W Args Ret Ret_default N (Some f) _args st s w))
     = data s
  /\ data (engine W unit (wrap_void true W Args N (Some g) _args st s w))
     = data s.
Proof.
  intros Hfin Hgate.
  assert (negb (ready (get_slot N s))
          || (gotcha_suppression s || slot_suppressed (get_slot N s) s) = true)
    as Hbranch.
  { destruct Hgate as [-> | ->]; [done | apply orb_true_r]. }
  assert (forall (R : Type) (R_default : R) (h : Args -> W -> R * W)
                 (r : call_result W R),
    r = (if is_finalized (get_slot N s) || _protect_tls_alloc st
         then call_through W Args h _args st s w
         else
           let _suppress :=
             gotcha_suppression s || slot_suppressed (get_slot N s) s in
           let st0 := {| _protect_tls_alloc := false;
                         _recursive := _recursive st |} in
           let '(st1, s1) :=
             not_ready_diagnostic (get_slot N s) _suppress st0 s in
           call_through W Args h _args st1 s1 w) ->
    passed_through W Args N h _args st s w r /\ data (engine W R r) = data s) as Hgen.
  { intros R R_default h r ->. rewrite Hfin. simpl.
    destruct (_protect_tls_alloc st) eqn:Hp.
    - split; [apply call_through_passed|].
      unfold call_through. by destruct (h _args w).
    - pose proof (not_ready_diagnostic_statics (get_slot N s)
        (gotcha_suppression s || slot_suppressed (get_slot N s) s) st s Hp) as Hst.
      pose proof (not_ready_diagnostic_engine (get_slot N s)
        (gotcha_suppression s || slot_suppressed (get_slot N s) s)
        {| _protect_tls_alloc := false; _recursive := _recursive st |} s) as Hen.
      destruct (not_ready_diagnostic _ _ _ s) as [st1 s1]. simpl in *. subst st1.
      unfold passed_through, call_through. destruct (h _args w) as [r w'].
      simpl. destruct Hen as [-> | ->]; simpl; eauto 6. }
  destruct (Hgen Ret Ret_default f
              (wrap true W Args Ret Ret_default N (Some f) _args st s w))
    as [H1 H2].
  { unfold wrap. simpl. rewrite Hbranch. done. }
  destruct (Hgen unit tt g (wrap_void true W Args N (Some g) _args st s w))
    as [H3 H4].
  { unfold wrap_void. simpl. rewrite Hbranch. done. }
  auto.
Qed.

End DispatcherFacts.

(** ** Symbol filter *)

Lemma mpi_rejected_builtin itr _func :
  In itr mpi_reject_list ->
  _func = itr \/ _func = tofortran itr ->
  mpi_rejected true _func = true.
Proof.
  unfold mpi_reject_list. simpl.
  intros Hin [-> | ->];
    repeat (destruct Hin as [<- | Hin]; [vm_compute; reflexivity|]);
    contradiction.
Qed.

(** C2, as the code has it.  In an instantiation whose operator type is
    [void], every name of the built-in list, and the lowercase form with a
    trailing underscore of every such name, is refused by [is_permitted]
    whatever the permit and reject lists hold. *)
Theorem is_permitted_builtin_deny itr _func s :
  In itr mpi_reject_list ->
  _func = itr \/ _func = tofortran itr ->
  fst (is_permitted true _func s) = false.
Proof.
  intros Hin Hf. unfold is_permitted.
  by rewrite (mpi_rejected_builtin itr _func Hin Hf).
Qed.

(** An instance: the Fortran spelling of [MPI_Abort], present in the permit
    list. *)
Lemma is_permitted_builtin_deny_witness :
  let s := with_permit_list {[ "mpi_abort_" ]} (state_init 1) in
  (In "MPI_Abort" mpi_reject_list
   /\ ("mpi_abort_" = "MPI_Abort" \/ "mpi_abort_" = tofortran "MPI_Abort"))
  /\ fst (is_permitted true "mpi_abort_" s) = false.
Proof.
  intros s. split; [split; [vm_compute; tauto | right; reflexivity]|].
  apply (is_permitted_builtin_deny "MPI_Abort").
  - vm_compute; tauto.
  - right. reflexivity.
Defined.

(** C2, as stated, fails: an instantiation with a non-void operator type (a
    replacing gotcha) skips the built-in list, and [MPI_Abort] is permitted,
    with an empty permit list as well as with one that holds it. *)
Lemma is_permitted_replacement_allows_MPI_Abort :
  In "MPI_Abort" mpi_reject_list
  /\ fst (is_permitted false "MPI_Abort" (state_init 1)) = true
  /\ fst (is_permitted false "MPI_Abort"
            (with_permit_list {[ "MPI_Abort" ]} (state_init 1))) = true.
Proof. split; [vm_compute; tauto | vm_compute; auto]. Qed.

(** ** [get_info] *)

Lemma get_info_fold s l a b c d e :
  foldl (fun _info itr =>
           let _info := at_add 0 (b2n (ready itr)) _info in
           let _info := at_add 1 (b2n (filled itr)) _info in
           let _info := at_add 2 (b2n (is_active itr)) _info in
           let _info := at_add 3 (b2n (is_finalized itr)) _info in
           at_add 4 (b2n (match suppression itr with
                          | Some p => negb (deref p s)
                          | None => false
                          end)) _info)
        [a; b; c; d; e] l
  = [ a + count_slots ready l; b + count_slots filled l;
      c + count_slots is_active l; d + count_slots is_finalized l;
      e + count_slots (suppression_lowered s) l ].
Proof.
  revert a b c d e. induction l as [|itr l IH]; intros a b c d e; simpl.
  - by rewrite !Nat.add_0_r.
  - unfold at_add at 1 2 3 4 5. simpl. rewrite IH.
    unfold suppression_lowered at 2. by rewrite !Nat.add_assoc.
Qed.

(** C9, as the code has it.  [get_info] returns five counts: the slots whose
    [ready], [filled], [is_active] and [is_finalized] flag is true, in this
    order, and the slots that hold a suppression reference whose flag is
    currently false. *)
Theorem get_info_counts s :
  get_info s =
    [ count_slots ready (data s); count_slots filled (data s);
      count_slots is_active (data s); count_slots is_finalized (data s);
      count_slots (suppression_lowered s) (data s) ].
Proof. unfold get_info. simpl. by rewrite get_info_fold. Qed.

(** ** What the binding-table operations leave alone *)

Lemma frame_refl s : frame s s.
Proof. by constructor. Qed.

Lemma frame_trans s1 s2 s3 : frame s1 s2 -> frame s2 s3 -> frame s1 s3.
Proof.
  intros [] []. constructor;
    first [ congruence | intros i; etransitivity; eauto ].
Qed.

Lemma keeps_refl s : keeps s s.
Proof. split; [apply frame_refl | done]. Qed.

Lemma keeps_trans s1 s2 s3 : keeps s1 s2 -> keeps s2 s3 -> keeps s1 s3.
Proof.
  intros [F1 D1] [F2 D2]. split; [by eapply frame_trans|].
  intros n. by rewrite D2.
Qed.

Lemma count_events_app p tr1 tr2 :
  count_events p (tr1 ++ tr2) = count_events p tr1 + count_events p tr2.
Proof. induction tr1 as [|e tr1 IH]; simpl; [done|]. rewrite IH. lia. Qed.

Lemma frame_log e s : frame s (log e s).
Proof. by constructor. Qed.

Lemma destructor_calls_log n e s :
  destructor_calls n (log e s)
  = destructor_calls n s + b2n (is_call_destructor n e).
Proof.
  unfold destructor_calls, log; simpl. rewrite count_events_app. simpl. lia.
Qed.

Lemma installs_log n e s :
  installs n (log e s) = installs n s + b2n (is_backend_wrap n e).
Proof.
  unfold installs, log; simpl. rewrite count_events_app. simpl. lia.
Qed.

Lemma keeps_log e s :
  (forall n, is_call_destructor n e = false) -> keeps s (log e s).
Proof.
  intros H. split; [apply frame_log|].
  intros n. rewrite destructor_calls_log, H. simpl. lia.
Qed.

Lemma is_finalized_get_slot_update N f i s :
  (forall d, is_finalized (f d) = is_finalized d) ->
  is_finalized (get_slot i (update_slot N f s)) = is_finalized (get_slot i s).
Proof.
  intros Hf. destruct (decide (N = i)) as [<-|Hne].
  - destruct (decide (N < length (data s))).
    + by rewrite get_slot_update_slot_eq.
    + by rewrite update_slot_out_of_range by lia.
  - by rewrite get_slot_update_slot_ne.
Qed.

Lemma keeps_update_slot N f s :
  (forall d, is_finalized (f d) = is_finalized d) ->
  keeps s (update_slot N f s).
Proof.
  intros Hf. split; [|done]. constructor; try done.
  - apply length_data_update_slot.
  - intros i. by apply is_finalized_get_slot_update.
Qed.

Lemma keeps_fmap f s :
  (forall d, is_finalized (f d) = is_finalized d) ->
  keeps s (with_data (f <$> data s) s).
Proof.
  intros Hf. split; [|done]. constructor; try done.
  - simpl. apply length_fmap.
  - intros i. unfold get_slot; simpl. rewrite list_lookup_fmap.
    by destruct (data s !! i); simpl.
Qed.

Lemma keeps_with_gotcha_suppression v s : keeps s (with_gotcha_suppression v s).
Proof. split; [by constructor | done]. Qed.

Lemma keeps_with_is_configured v s : keeps s (with_is_configured v s).
Proof. split; [by constructor | done]. Qed.

Lemma keeps_with_thread_started v s : keeps s (with_thread_started v s).
Proof. split; [by constructor | done]. Qed.

Lemma keeps_auto_toggle_enter s : keeps s (snd (auto_toggle_enter s)).
Proof.
  unfold auto_toggle_enter. destruct (gotcha_suppression s); simpl.
  - apply keeps_refl.
  - apply keeps_with_gotcha_suppression.
Qed.

Lemma keeps_auto_toggle_leave b s : keeps s (auto_toggle_leave b s).
Proof.
  unfold auto_toggle_leave. destruct (b && gotcha_suppression s).
  - apply keeps_with_gotcha_suppression.
  - apply keeps_refl.
Qed.

Lemma keeps_debug_printf e s :
  (forall n, is_call_destructor n e = false) -> keeps s (debug_printf e s).
Proof.
  intros H. unfold debug_printf. destruct (settings_debug s).
  - by apply keeps_log.
  - apply keeps_refl.
Qed.

Lemma keeps_is_permitted vo _func s : keeps s (snd (is_permitted vo _func s)).
Proof.
  unfold is_permitted.
  repeat (case_match; simpl; try apply keeps_refl;
          try (apply keeps_debug_printf; done)).
Qed.

Ltac keeps_step :=
  first
    [ apply keeps_log; done
    | apply keeps_update_slot; done
    | apply keeps_auto_toggle_leave
    | apply keeps_auto_toggle_enter
    | apply keeps_with_gotcha_suppression
    | apply keeps_with_is_configured
    | apply keeps_with_thread_started ].

Ltac keeps_chain :=
  repeat first [ apply keeps_refl | eapply keeps_trans; [|keeps_step] ].

Lemma keeps_revert N s : keeps s (snd (revert N s)).
Proof.
  unfold revert.
  pose proof (keeps_auto_toggle_enter s) as He.
  destruct (auto_toggle_enter s) as [lk s0]. simpl in *.
  eapply keeps_trans; [|apply keeps_auto_toggle_leave].
  eapply keeps_trans; [exact He|].
  destruct (filled (get_slot N s0) && is_active (get_slot N s0));
    [|apply keeps_refl].
  destruct (bool_decide _); keeps_chain.
Qed.

Lemma keeps_construct_fill demangle N _func _priority _tool s :
  keeps s (construct_fill demangle N _func _priority _tool s).
Proof. unfold construct_fill. keeps_chain. Qed.

Lemma keeps_construct_activate N s : keeps s (construct_activate N s).
Proof. unfold construct_activate. keeps_chain. Qed.

Lemma keeps_construct vo demangle N _func _priority _tool s :
  keeps s (snd (construct vo demangle N _func _priority _tool s)).
Proof.
  unfold construct. destruct (StdString.empty _func); [apply keeps_refl|].
  pose proof (keeps_auto_toggle_enter s) as He.
  destruct (auto_toggle_enter s) as [lk s0]. simpl in *.
  pose proof (keeps_is_permitted vo _func (log init_storage s0)) as Hp.
  destruct (is_permitted vo _func (log init_storage s0)) as [ok s1].
  simpl in *.
  assert (keeps s s1) as Hs1.
  { eapply keeps_trans; [|exact Hp]. eapply keeps_trans; [exact He|].
    by apply keeps_log. }
  destruct ok; simpl.
  2: { eapply keeps_trans; [exact Hs1 | apply keeps_auto_toggle_leave]. }
  eapply keeps_trans; [|apply keeps_auto_toggle_leave].
  eapply keeps_trans; [exact Hs1|]. clear.
  set (s2 := if debug (get_slot N s1) then s1
             else update_slot N (put_debug true) s1).
  assert (keeps s1 s2) as H2 by (subst s2; case_match; keeps_chain).
  set (s3 := if filled (get_slot N s2) then s2
             else construct_fill demangle N _func _priority _tool s2).
  assert (keeps s2 s3) as H3
    by (subst s3; case_match; [keeps_chain | apply keeps_construct_fill]).
  set (s4 := if is_active (get_slot N s3) then s3
             else construct_activate N s3).
  assert (keeps s3 s4) as H4
    by (subst s4; case_match; [keeps_chain | apply keeps_construct_activate]).
  assert (keeps s4 (if ready (get_slot N s4) then s4 else snd (revert N s4)))
    as H5 by (case_match; [keeps_chain | apply keeps_revert]).
  eauto using keeps_trans.
Qed.

Lemma keeps_foldl {A : Type} (body : state -> A -> state) (l : list A) s :
  (forall acc x, keeps acc (body acc x)) -> keeps s (foldl body s l).
Proof.
  intros Hbody. revert s. induction l as [|x l IH]; intros s; simpl.
  - apply keeps_refl.
  - eapply keeps_trans; [apply Hbody | apply IH].
Qed.

Lemma keeps_invoke_constructor vo demangle N s :
  keeps s (invoke_constructor vo demangle N s).
Proof.
  unfold invoke_constructor.
  eapply keeps_trans; [by apply (keeps_log (call_constructor N))|].
  case_match; [apply keeps_refl | apply keeps_construct].
Qed.

Lemma keeps_configure vo demangle s : keeps s (configure vo demangle s).
Proof.
  unfold configure. destruct (is_configured s); [apply keeps_refl|].
  eapply keeps_trans; [apply (keeps_with_is_configured true)|].
  unfold run_initializer.
  eapply keeps_trans; [by apply (keeps_log call_initializer)|].
  apply keeps_foldl. intros acc [[[N f] p] t]. apply keeps_construct.
Qed.

Lemma keeps_with_started v a b :
  keeps a b -> keeps (with_started v a) (with_started v b).
Proof.
  intros [[] D]. split; [by constructor | exact D].
Qed.

Lemma with_started_with_started u v s :
  with_started v (with_started u s) = with_started v s.
Proof. done. Qed.

(** ** [start()] and [stop()] *)

Lemma start_keeps vo demangle tid s :
  is_finalizing s = false ->
  keeps (with_started (started s + 1) s) (start vo demangle tid s).
Proof.
  intros Hf. unfold start. rewrite Hf.
  set (s1 := set_thread_started tid _ (with_started (started s + 1) s)).
  assert (keeps (with_started (started s + 1) s) s1) as H1
    by apply keeps_with_thread_started.
  set (s2 := if _ && negb (is_configured s1) then configure vo demangle s1 else s1).
  assert (keeps s1 s2) as H2
    by (subst s2; case_match; [apply keeps_configure | apply keeps_refl]).
  set (s3 := if (started s =? 0)%Z then _ else s2).
  assert (keeps s2 s3) as H3.
  { subst s3. case_match; [|apply keeps_refl].
    eapply keeps_trans; [apply keeps_configure|].
    apply keeps_foldl. intros acc i.
    case_match; [apply keeps_refl | apply keeps_invoke_constructor]. }
  assert (keeps s3 (if (get_thread_started tid (with_started (started s + 1) s) =? 0)%Z
                    then with_data ((fun d => put_ready (filled d) d) <$> data s3) s3
                    else s3)) as H4
    by (case_match; [by apply keeps_fmap | apply keeps_refl]).
  eauto using keeps_trans.
Qed.

Lemma starts_keeps vo demangle tids s :
  is_finalizing s = false ->
  keeps (with_started (started s + Z.of_nat (length tids)) s)
        (starts vo demangle tids s).
Proof.
  revert s. induction tids as [|tid tids IH]; intros s Hf.
  - simpl. rewrite Z.add_0_r. destruct s; apply keeps_refl.
  - pose proof (start_keeps vo demangle tid s Hf) as [F D].
    assert (is_finalizing (start vo demangle tid s) = false) as Hf'
      by (rewrite (frame_is_finalizing _ _ F); exact Hf).
    specialize (IH _ Hf').
    rewrite (frame_started _ _ F) in IH. simpl in IH.
    change (starts vo demangle (tid :: tids) s)
      with (starts vo demangle tids (start vo demangle tid s)).
    eapply keeps_trans; [|exact IH].
    replace (started s + Z.of_nat (length (tid :: tids)))%Z
      with (started s + 1 + Z.of_nat (length tids))%Z
      by (simpl length; lia).
    rewrite <- (with_started_with_started (started s + 1)
                  (started s + 1 + Z.of_nat (length tids)) s).
    by apply keeps_with_started.
Qed.

Lemma invoke_destructor_frame i s :
  frame s (invoke_destructor i s)
  /\ forall n, destructor_calls n (invoke_destructor i s)
               = destructor_calls n s + b2n (Nat.eqb i n).
Proof.
  unfold invoke_destructor.
  assert (frame s (log (call_destructor i) s)) as F0 by apply frame_log.
  assert (forall n, destructor_calls n (log (call_destructor i) s)
                    = destructor_calls n s + b2n (Nat.eqb i n)) as D0
    by (intros n; apply destructor_calls_log).
  case_match; [done|].
  destruct (keeps_revert i (log (call_destructor i) s)) as [F1 D1].
  split; [by eapply frame_trans|]. intros n. by rewrite D1.
Qed.

Lemma destructor_loop l s :
  NoDup l ->
  let s' := foldl (fun acc i => if is_finalized (get_slot i acc) then acc
                                else invoke_destructor i acc) s l in
  frame s s'
  /\ forall n, destructor_calls n s'
       = destructor_calls n s
         + (if decide (n ∈ l)
            then b2n (negb (is_finalized (get_slot n s))) else 0).
Proof.
  revert s. induction l as [|i l IH]; intros s Hnd; cbn [foldl].
  - split; [apply frame_refl|]. intros n.
    rewrite decide_False by apply not_elem_of_nil. lia.
  - apply NoDup_cons in Hnd as [Hi Hnd].
    set (s1 := if is_finalized (get_slot i s) then s else invoke_destructor i s).
    assert (frame s s1
            /\ forall n, destructor_calls n s1
                 = destructor_calls n s
                   + (if decide (n = i)
                      then b2n (negb (is_finalized (get_slot n s))) else 0))
      as [F1 D1].
    { subst s1. destruct (is_finalized (get_slot i s)) eqn:E.
      - split; [apply frame_refl|]. intros n.
        case_decide; [subst; rewrite E; simpl|]; lia.
      - destruct (invoke_destructor_frame i s) as [F D]. split; [done|].
        intros n. rewrite D. case_decide.
        + subst. rewrite E, Nat.eqb_refl. done.
        + by rewrite (proj2 (Nat.eqb_neq i n)). }
    destruct (IH s1 Hnd) as [F2 D2]. split; [by eapply frame_trans|].
    intros n. rewrite D2, D1, (frame_is_finalized _ _ F1).
    destruct (decide (n = i)) as [->|Hne].
    + rewrite (decide_False (P := i ∈ l)) by done.
      rewrite decide_True by (apply elem_of_cons; by left). lia.
    + destruct (decide (n ∈ l)).
      * rewrite decide_True by (apply elem_of_cons; by right). lia.
      * rewrite decide_False by (by apply not_elem_of_cons). lia.
Qed.

Lemma stop_inner tid s :
  (started s - 1 <> 0)%Z ->
  keeps (with_started (started s - 1) s) (stop tid s).
Proof.
  intros Hn. unfold stop.
  rewrite (proj2 (Z.eqb_neq (started s - 1) 0) Hn).
  eapply keeps_trans; [apply keeps_with_thread_started|].
  case_match; [by apply keeps_fmap | apply keeps_refl].
Qed.

Lemma stop_outermost tid s :
  (started s - 1 = 0)%Z ->
  frame (with_started 0 s) (stop tid s)
  /\ forall n, destructor_calls n (stop tid s)
       = destructor_calls n s
         + (if decide (n < length (data s))
            then b2n (negb (is_finalized (get_slot n s))) else 0).
Proof.
  intros Hn. unfold stop. rewrite Hn. cbn [Z.eqb].
  match goal with |- context [for_each_slot _ ?x] => set (s2 := x) end.
  assert (keeps (with_started 0 s) s2) as [F2 D2].
  { subst s2.
    eapply keeps_trans; [|case_match; [by apply keeps_fmap | apply keeps_refl]].
    apply keeps_with_thread_started. }
  unfold for_each_slot.
  destruct (destructor_loop (seq 0 (length (data s2))) s2 (NoDup_seq _ _))
    as [F3 D3].
  split; [by eapply frame_trans|].
  intros n. rewrite D3, D2, (frame_is_finalized _ _ F2), (frame_length _ _ F2).
  simpl. change (destructor_calls n (with_started 0 s))
    with (destructor_calls n s).
  f_equal. destruct (decide (n < length (data s))).
  - rewrite decide_True by (apply elem_of_seq; lia). done.
  - rewrite decide_False by (rewrite elem_of_seq; lia). done.
Qed.

Lemma stops_inner tids s :
  (Z.of_nat (length tids) < started s)%Z ->
  keeps (with_started (started s - Z.of_nat (length tids)) s) (stops tids s).
Proof.
  revert s. induction tids as [|tid tids IH]; intros s Hlt.
  - simpl. rewrite Z.sub_0_r. destruct s; apply keeps_refl.
  - simpl length in Hlt.
    pose proof (stop_inner tid s ltac:(lia)) as [F D].
    change (stops (tid :: tids) s) with (stops tids (stop tid s)).
    assert (Z.of_nat (length tids) < started (stop tid s))%Z as Hlt'
      by (rewrite (frame_started _ _ F); simpl; lia).
    specialize (IH _ Hlt'). rewrite (frame_started _ _ F) in IH. simpl in IH.
    eapply keeps_trans; [|exact IH].
    replace (started s - Z.of_nat (length (tid :: tids)))%Z
      with (started s - 1 - Z.of_nat (length tids))%Z
      by (simpl length; lia).
    rewrite <- (with_started_with_started (started s - 1)
                  (started s - 1 - Z.of_nat (length tids)) s).
    by apply keeps_with_started.
Qed.

(** C3, as the code has it.  While the storage is not finalizing and with the
    global counter at zero, [N >= 1] calls of [start()] followed by [N]
    calls of [stop()] (on whatever threads) bring [started] back to zero;
    no destructor closure runs before the last [stop()], and that [stop()]
    invokes the destructor closure of every slot that is not finalized
    exactly once and of no finalized slot. *)
Theorem start_stop_balanced vo demangle tids1 tids2 last s :
  length tids1 = S (length tids2) ->
  started s = 0%Z ->
  is_finalizing s = false ->
  let mid := stops tids2 (starts vo demangle tids1 s) in
  let s' := stops (tids2 ++ [last]) (starts vo demangle tids1 s) in
  started s' = 0%Z
  /\ forall n, n < length (data s) ->
       destructor_calls n mid = destructor_calls n s
       /\ destructor_calls n s'
          = destructor_calls n s + b2n (negb (is_finalized (get_slot n s))).
Proof.
  intros Hlen H0 Hf mid s'.
  destruct (starts_keeps vo demangle tids1 s Hf) as [F1 D1].
  rewrite H0, Hlen in F1. simpl in F1.
  assert (Z.of_nat (length tids2) < started (starts vo demangle tids1 s))%Z
    as Hlt by (rewrite (frame_started _ _ F1); simpl; lia).
  destruct (stops_inner tids2 _ Hlt) as [F2 D2]. fold mid in F2, D2.
  rewrite (frame_started _ _ F1) in F2. simpl in F2.
  assert (started mid - 1 = 0)%Z as Hlast
    by (rewrite (frame_started _ _ F2); simpl; lia).
  destruct (stop_outermost last mid Hlast) as [F3 D3].
  assert (s' = stop last mid) as ->
    by (unfold s', mid, stops; by rewrite foldl_app).
  split; [by rewrite (frame_started _ _ F3)|].
  intros n Hn.
  assert (destructor_calls n mid = destructor_calls n s) as Dmid
    by (etransitivity; [exact (D2 n) | exact (D1 n)]).
  split; [exact Dmid|].
  assert (length (data mid) = length (data s)) as Lmid
    by (etransitivity; [exact (frame_length _ _ F2) | exact (frame_length _ _ F1)]).
  assert (is_finalized (get_slot n mid) = is_finalized (get_slot n s)) as Fmid
    by (etransitivity; [exact (frame_is_finalized _ _ F2 n)
                       | exact (frame_is_finalized _ _ F1 n)]).
  rewrite D3, Dmid, Lmid, Fmid. by rewrite decide_True.
Qed.

(** An instance: two threads, each starting and stopping once. *)
Lemma start_stop_balanced_witness :
  let s := state_init 2 in
  length [0; 1] = S (length [1])
  /\ started s = 0%Z
  /\ is_finalizing s = false
  /\ started (stops ([1] ++ [0]) (starts true demangle_plain [0; 1] s)) = 0%Z.
Proof.
  intros s. repeat (split; [reflexivity|]).
  apply (start_stop_balanced true demangle_plain [0; 1] [1] 0 s); reflexivity.
Defined.

(** C3, as stated, fails while the storage is finalizing: [start()] returns
    before it counts, [stop()] still decrements, and no destructor closure
    runs. *)
Lemma start_stop_unbalanced_when_finalizing :
  let s := with_is_finalizing true (state_init 1) in
  let s' := stops [0] (starts true demangle_plain [0] s) in
  started s = 0%Z
  /\ started s' = (-1)%Z
  /\ is_finalized (get_slot 0 s) = false
  /\ destructor_calls 0 s' = destructor_calls 0 s.
Proof. vm_compute. auto. Qed.

(** ** [construct] on a permitted symbol *)

Lemma is_permitted_true vo _func s :
  fst (is_permitted vo _func s) = true -> is_permitted vo _func s = (true, s).
Proof. unfold is_permitted. by repeat case_match. Qed.

Lemma is_permitted_frame vo _func s s' :
  keeps s s' ->
  fst (is_permitted vo _func s') = fst (is_permitted vo _func s).
Proof.
  intros [F _]. unfold is_permitted.
  rewrite (frame_permit_list _ _ F), (frame_reject_list _ _ F).
  by repeat case_match.
Qed.

Lemma construct_permitted vo demangle N _func _priority _tool s :
  StdString.empty _func = false ->
  fst (is_permitted vo _func s) = true ->
  construct vo demangle N _func _priority _tool s =
    (let s0 := log init_storage (snd (auto_toggle_enter s)) in
     let s1 := if debug (get_slot N s0) then s0
               else update_slot N (put_debug true) s0 in
     let s2 := if filled (get_slot N s1) then s1
               else construct_fill demangle N _func _priority _tool s1 in
     let s3 := if is_active (get_slot N s2) then s2
               else construct_activate N s2 in
     let s4 := if ready (get_slot N s3) then s3 else snd (revert N s3) in
     (filled (get_slot N s4),
      auto_toggle_leave (fst (auto_toggle_enter s)) s4)).
Proof.
  intros He Hp. unfold construct. rewrite He.
  pose proof (keeps_auto_toggle_enter s) as Hk.
  destruct (auto_toggle_enter s) as [lk s0]. simpl in *.
  assert (keeps s (log init_storage s0)) as Hk'
    by (eapply keeps_trans; [exact Hk | by apply keeps_log]).
  rewrite <- (is_permitted_frame vo _func _ _ Hk') in Hp.
  by rewrite (is_permitted_true _ _ _ Hp).
Qed.

Lemma trace_auto_toggle_enter s : trace (snd (auto_toggle_enter s)) = trace s.
Proof. unfold auto_toggle_enter. by destruct (gotcha_suppression s). Qed.

Lemma trace_auto_toggle_leave b s : trace (auto_toggle_leave b s) = trace s.
Proof. unfold auto_toggle_leave. by destruct (b && gotcha_suppression s). Qed.

Lemma installs_revert n N s : installs n (snd (revert N s)) = installs n s.
Proof.
  unfold installs, revert.
  pose proof (trace_auto_toggle_enter s) as Ht.
  destruct (auto_toggle_enter s) as [lk s0]. simpl in *.
  rewrite trace_auto_toggle_leave, <- Ht.
  destruct (filled (get_slot N s0) && is_active (get_slot N s0)); [|done].
  destruct (bool_decide _); simpl;
    rewrite <- !app_assoc, count_events_app; simpl; lia.
Qed.

Lemma installs_construct_activate n N s :
  installs n (construct_activate N s) = installs n s.
Proof.
  unfold installs, construct_activate. simpl.
  rewrite <- !app_assoc, count_events_app. simpl. lia.
Qed.

Lemma installs_construct_fill demangle N _func _priority _tool s :
  installs N (construct_fill demangle N _func _priority _tool s)
  = installs N s + 1.
Proof.
  unfold installs, construct_fill. simpl.
  rewrite <- !app_assoc, count_events_app. simpl.
  by rewrite Nat.eqb_refl.
Qed.

Lemma get_slot_construct_fill demangle N _func _priority _tool s :
  N < length (data s) ->
  get_slot N (construct_fill demangle N _func _priority _tool s) =
    {| filled := true; priority := _priority;
       tool_id := prefixed_label _tool (demangle _func);
       wrap_id := _func;
       ready := if bool_decide (_func ∈ suppresses s) then false
                else default_ready s;
       suppression := if bool_decide (_func ∈ suppresses s)
                      then Some gotcha_suppression_get
                      else suppression (get_slot N s);
       constructor := constructor_construct _func _priority _tool;
       destructor := destructor_revert;
       binding := Some _func;
       is_active := is_active (get_slot N s);
       is_finalized := is_finalized (get_slot N s);
       debug := debug (get_slot N s) |}.
Proof.
  intros HN. unfold construct_fill, get_slot. simpl.
  rewrite list_lookup_alter_eq.
  by destruct (lookup_lt_is_Some_2 _ _ HN) as [d ->].
Qed.

Lemma get_slot_construct_activate N s :
  N < length (data s) ->
  get_slot N (construct_activate N s) = put_is_active true (get_slot N s).
Proof.
  intros HN. unfold construct_activate, get_slot. simpl.
  rewrite list_lookup_alter_eq.
  by destruct (lookup_lt_is_Some_2 _ _ HN) as [d ->].
Qed.

Lemma put_debug_true_id d : debug d = true -> put_debug true d = d.
Proof. destruct d; simpl; by intros ->. Qed.

Lemma installs_auto_toggle_leave n b s :
  installs n (auto_toggle_leave b s) = installs n s.
Proof. unfold installs. by rewrite trace_auto_toggle_leave. Qed.

Lemma construct_slot vo demangle N _func _priority _tool s :
  N < length (data s) ->
  StdString.empty _func = false ->
  fst (is_permitted vo _func s) = true ->
  let d := get_slot N s in
  let r0 := if filled d then ready d
            else if bool_decide (_func ∈ suppresses s) then false
                 else default_ready s in
  let res := construct vo demangle N _func _priority _tool s in
  let d' := get_slot N (snd res) in
  fst res = true
  /\ filled d' = true
  /\ installs N (snd res) = installs N s + b2n (negb (filled d))
  /\ constructor d'
     = (if filled d then constructor d
        else constructor_construct _func _priority _tool)
  /\ is_active d' = r0
  /\ (r0 = true -> ready d' = true)
  /\ (default_ready s = false -> r0 = false -> ready d' = false).
Proof.
  intros HN He Hp d r0 res d'. subst res d'.
  rewrite (construct_permitted vo demangle N _func _priority _tool s He Hp).
  cbv zeta. cbn [fst snd].
  rewrite get_slot_auto_toggle_leave, installs_auto_toggle_leave.
  (* stage 0 *)
  set (s0 := log init_storage (snd (auto_toggle_enter s))).
  assert (keeps s s0) as K0
    by (eapply keeps_trans; [apply keeps_auto_toggle_enter | by apply keeps_log]).
  assert (get_slot N s0 = d) as G0 by apply get_slot_auto_toggle_enter.
  assert (installs N s0 = installs N s) as I0.
  { unfold s0. rewrite installs_log. unfold installs.
    rewrite trace_auto_toggle_enter. simpl. lia. }
  (* stage 1 *)
  set (s1 := if debug (get_slot N s0) then s0
             else update_slot N (put_debug true) s0).
  assert (keeps s0 s1) as K1
    by (subst s1; destruct (debug (get_slot N s0)); keeps_chain).
  assert (get_slot N s1 = put_debug true d) as G1.
  { subst s1. rewrite G0. destruct (debug d) eqn:Ed.
    - by rewrite G0, put_debug_true_id.
    - rewrite get_slot_update_slot_eq, G0; [done|].
      by rewrite (frame_length _ _ (proj1 K0)). }
  assert (installs N s1 = installs N s) as I1
    by (subst s1; destruct (debug (get_slot N s0)); exact I0).
  assert (keeps s s1) as K01 by (eapply keeps_trans; eauto).
  clearbody s1. clear K0 K1 G0 I0 s0.
  (* stage 2 *)
  set (s2 := if filled (get_slot N s1) then s1
             else construct_fill demangle N _func _priority _tool s1).
  assert (keeps s1 s2) as K2
    by (subst s2; destruct (filled (get_slot N s1));
        [keeps_chain | apply keeps_construct_fill]).
  assert (keeps s s2) as K02 by (eapply keeps_trans; eauto).
  assert (N < length (data s1)) as HN1
    by (by rewrite (frame_length _ _ (proj1 K01))).
  assert (N < length (data s2)) as HN2
    by (by rewrite (frame_length _ _ (proj1 K02))).
  assert (filled (get_slot N s2) = true
          /\ installs N s2 = installs N s + b2n (negb (filled d))
          /\ constructor (get_slot N s2)
             = (if filled d then constructor d
                else constructor_construct _func _priority _tool)
          /\ ready (get_slot N s2) = r0) as (Gf2 & I2 & Gc2 & Gr2).
  { subst s2 r0. rewrite G1. simpl. destruct (filled d) eqn:Ef.
    - rewrite G1. simpl. rewrite I1. simpl. repeat split; try done; lia.
    - rewrite get_slot_construct_fill by done.
      rewrite installs_construct_fill, I1. simpl.
      by rewrite (frame_suppresses _ _ (proj1 K01)),
                 (frame_default_ready _ _ (proj1 K01)). }
  clearbody s2. clear K2 G1 I1.
  (* stage 3 *)
  set (s3 := if is_active (get_slot N s2) then s2 else construct_activate N s2).
  assert (keeps s2 s3) as K3
    by (subst s3; destruct (is_active (get_slot N s2));
        [keeps_chain | apply keeps_construct_activate]).
  assert (keeps s s3) as K03 by (eapply keeps_trans; eauto).
  assert (N < length (data s3)) as HN3
    by (by rewrite (frame_length _ _ (proj1 K03))).
  assert (get_slot N s3 = put_is_active true (get_slot N s2)
          /\ installs N s3 = installs N s2) as [G3 I3].
  { subst s3. destruct (is_active (get_slot N s2)) eqn:Ea.
    - split; [|done]. destruct (get_slot N s2); simpl in *; by subst.
    - by rewrite get_slot_construct_activate, installs_construct_activate. }
  clearbody s3.
  (* stage 4 *)
  assert (ready (get_slot N s3) = r0) as Gr3 by (by rewrite G3).
  rewrite Gr3. clearbody r0. destruct r0.
  - rewrite G3. simpl. rewrite I3, I2, Gf2, Gc2. done.
  - rewrite installs_revert, I3, I2.
    rewrite revert_slot; [|done|]; rewrite G3; simpl; rewrite ?Gf2; [|done].
    rewrite Gc2. repeat split; try done.
    intros Hd _. rewrite (frame_default_ready _ _ (proj1 K03)), Hd.
    by destruct (bool_decide _).
Qed.

(** C1, as the code has it.  Two [construct] calls with the same non-empty,
    permitted symbol, priority and tool label on a slot that is not filled
    yet both return true; the backend is asked to install the binding once,
    by the first call, and the constructor closure is the one that call
    recorded.  [is_active] is true after both calls when [default_ready] is
    true and the symbol is not globally suppressed, and false after both
    calls when [default_ready] is false, because [construct] reverts a slot
    that is not ready. *)
Theorem construct_twice_installs_once vo demangle N _func _priority _tool s :
  N < length (data s) ->
  StdString.empty _func = false ->
  fst (is_permitted vo _func s) = true ->
  filled (get_slot N s) = false ->
  let r1 := construct vo demangle N _func _priority _tool s in
  let r2 := construct vo demangle N _func _priority _tool (snd r1) in
  fst r1 = true /\ fst r2 = true
  /\ installs N (snd r1) = installs N s + 1
  /\ installs N (snd r2) = installs N (snd r1)
  /\ constructor (get_slot N (snd r1))
     = constructor_construct _func _priority _tool
  /\ constructor (get_slot N (snd r2))
     = constructor_construct _func _priority _tool
  /\ (default_ready s = true -> _func ∉ suppresses s ->
      is_active (get_slot N (snd r1)) = true
      /\ is_active (get_slot N (snd r2)) = true)
  /\ (default_ready s = false ->
      is_active (get_slot N (snd r1)) = false
      /\ is_active (get_slot N (snd r2)) = false).
Proof.
  intros HN He Hp Hf r1 r2.
  destruct (construct_slot vo demangle N _func _priority _tool s HN He Hp)
    as (A1 & A2 & A3 & A4 & A5 & A6 & A7).
  fold r1 in A1, A2, A3, A4, A5, A6, A7. rewrite Hf in A3, A4, A5, A6, A7.
  simpl in A3, A4, A5, A6, A7.
  pose proof (keeps_construct vo demangle N _func _priority _tool s) as K.
  fold r1 in K.
  assert (N < length (data (snd r1))) as HN'
    by (by rewrite (frame_length _ _ (proj1 K))).
  assert (fst (is_permitted vo _func (snd r1)) = true) as Hp'
    by (by rewrite (is_permitted_frame _ _ _ _ K)).
  destruct (construct_slot vo demangle N _func _priority _tool (snd r1)
              HN' He Hp') as (B1 & B2 & B3 & B4 & B5 & B6 & B7).
  fold r2 in B1, B2, B3, B4, B5, B6, B7. rewrite A2 in B3, B4, B5, B6, B7.
  simpl in B3, B4, B5, B6, B7.
  repeat split; try done.
  - lia.
  - congruence.
  - rewrite A5. rewrite bool_decide_eq_false_2 by done. done.
  - rewrite B5. apply A6. rewrite bool_decide_eq_false_2 by done. done.
  - rewrite A5, H. by destruct (bool_decide _).
  - rewrite B5. apply A7; [done|]. rewrite H. by destruct (bool_decide _).
Qed.

(** An instance: [malloc] on a one-slot table with [get_default_ready()] set. *)
Lemma construct_twice_installs_once_witness :
  let s := with_default_ready true (state_init 1) in
  let r1 := construct true demangle_plain 0 "malloc" 0 "timemory" s in
  let r2 := construct true demangle_plain 0 "malloc" 0 "timemory" (snd r1) in
  (0 < length (data s)
   /\ StdString.empty "malloc" = false
   /\ fst (is_permitted true "malloc" s) = true
   /\ filled (get_slot 0 s) = false)
  /\ installs 0 (snd r1) = installs 0 s + 1.
Proof.
  intros s r1 r2. split; [vm_compute; auto|].
  apply (construct_twice_installs_once true demangle_plain 0 "malloc" 0 "timemory" s);
    vm_compute; auto.
Defined.

(** C1, as stated, fails in the state the component starts in
    ([get_default_ready()] is false): the slot is filled and the binding is
    installed, but [construct] reverts it at once, and [is_active] is false
    after the first call and after the second. *)
Lemma construct_twice_inactive_by_default :
  let s := state_init 1 in
  let r1 := construct true demangle_plain 0 "malloc" 0 "" s in
  let r2 := construct true demangle_plain 0 "malloc" 0 "" (snd r1) in
  fst r1 = true /\ fst r2 = true
  /\ installs 0 (snd r2) = 1
  /\ is_active (get_slot 0 (snd r1)) = false
  /\ is_active (get_slot 0 (snd r2)) = false.
Proof. vm_compute. auto. Qed.

(** ** Suppressed symbols *)

(** The fill step itself leaves a globally suppressed symbol not ready, with
    its suppression reference set. *)
Lemma construct_fill_suppressed demangle N _func _priority _tool s :
  N < length (data s) ->
  _func ∈ suppresses s ->
  let d := get_slot N (construct_fill demangle N _func _priority _tool s) in
  ready d = false /\ suppression d = Some gotcha_suppression_get.
Proof.
  intros HN Hs d. subst d. rewrite get_slot_construct_fill by done.
  simpl. by rewrite bool_decide_eq_true_2.
Qed.

(** C6 at [add_global_suppression("free")] followed by
    [configure("free", 0, "tool")] with [get_default_ready()] set: the slot
    is filled with its suppression reference, but the [revert] that
    [construct] runs on a slot that is not ready looks the label
    ["tool/free"] up among the suppressed symbols, does not find it, and
    puts [ready] back to [default_ready]. *)
Theorem construct_suppressed_symbol_ends_ready :
  let s := add_global_suppression "free"
             (with_default_ready true (state_init 1)) in
  let r := construct true demangle_plain 0 "free" 0 "tool" s in
  fst (is_permitted true "free" s) = true
  /\ fst r = true
  /\ wrap_id (get_slot 0 (snd r)) = "free"
  /\ tool_id (get_slot 0 (snd r)) = "tool/free"
  /\ suppression (get_slot 0 (snd r)) = Some gotcha_suppression_get
  /\ ready (get_slot 0 (snd r)) = true.
Proof. vm_compute. auto 10. Qed.

(** With an empty tool label the label equals the symbol, the lookup in
    [revert] succeeds and the slot stays not ready. *)
Lemma construct_suppressed_symbol_no_tool :
  let s := add_global_suppression "free"
             (with_default_ready true (state_init 1)) in
  ready (get_slot 0 (snd (construct true demangle_plain 0 "free" 0 "" s))) = false.
Proof. vm_compute. reflexivity. Qed.

(** ** Finalized slots *)

(** [start()] does not hand a finalized slot to its constructor closure. *)
Lemma start_skips_finalized_slot :
  let s1 := snd (construct true demangle_plain 0 "malloc" 0 "" (state_init 1)) in
  let s3 := disable (start true demangle_plain 0 s1) in
  let s4 := start true demangle_plain 0 (stop 0 s3) in
  is_finalized (get_slot 0 s3) = true
  /\ is_active (get_slot 0 s4) = false
  /\ count_events (fun e => match e with call_constructor 0 => true | _ => false end)
       (trace s4)
     = count_events (fun e => match e with call_constructor 0 => true | _ => false end)
         (trace s3).
Proof. vm_compute. auto. Qed.

(** C4 at [configure("malloc", 0, "")], [start()], [disable()] and a second
    [configure("malloc", 0, "")] on a one-slot table: [disable] finalizes the
    slot and leaves it inactive, and the later [construct], which does not
    look at [is_finalized], makes it active again and asks the backend for
    its priority. *)
Theorem construct_reactivates_finalized_slot :
  let s1 := snd (construct true demangle_plain 0 "malloc" 0 "" (state_init 1)) in
  let s3 := disable (start true demangle_plain 0 s1) in
  let r := construct true demangle_plain 0 "malloc" 0 "" s3 in
  is_finalized (get_slot 0 s3) = true
  /\ is_active (get_slot 0 s3) = false
  /\ fst r = true
  /\ is_finalized (get_slot 0 (snd r)) = true
  /\ is_active (get_slot 0 (snd r)) = true
  /\ trace (snd r)
     = (trace s3 ++ [ init_storage; backend_set_priority "malloc" 0;
                      check_error 0 "set priority" ])%list.
Proof. vm_compute. auto 10. Qed.

(** ** [get_info] and suppression *)

(** C9, as stated, fails: after [add_global_suppression("free")] and
    [configure("free", 0, "tool")] no suppression flag is raised, so no slot
    is suppressed, yet the fifth counter is 1; with the flag raised the slot
    is suppressed and the counter is 0. *)
Lemma get_info_fifth_counts_lowered_flags :
  let s := snd (construct true demangle_plain 0 "free" 0 "tool"
                  (add_global_suppression "free" (state_init 1))) in
  let s' := with_gotcha_suppression true s in
  (get_info s !! 4 = Some 1
   /\ count_slots (fun d => slot_suppressed d s) (data s) = 0)
  /\ (get_info s' !! 4 = Some 0
      /\ count_slots (fun d => slot_suppressed d s') (data s') = 1).
Proof. vm_compute. auto. Qed.

(** ** A wrapped call on a slot that is not ready *)

(** An instance: a slot that is filled but not ready. *)
Lemma wrap_passthrough_frame_witness :
  let s := snd (construct true demangle_plain 0 "malloc" 0 "" (state_init 1)) in
  let st := {| _protect_tls_alloc := false; _recursive := false |} in
  let f := fun (a w : nat) => (a + 1, S w) in
  let g := fun (a w : nat) => (tt, S w) in
  (is_finalized (get_slot 0 s) = false
   /\ (ready (get_slot 0 s) = false
       \/ gotcha_suppression s || slot_suppressed (get_slot 0 s) s = true))
  /\ passed_through nat nat 0 f 5 st s 0
       (wrap true nat nat nat 0 0 (Some f) 5 st s 0).
Proof.
  intros s st f g. split; [split; [reflexivity | left; reflexivity]|].
  exact (proj1 (wrap_passthrough_frame nat nat nat 0 0 f g 5 st s 0
                  eq_refl (or_introl eq_refl))).
Defined.

(** ** The bound configuration of a filled slot *)

Lemma binds_refl s : binds s s.
Proof. by intros i _. Qed.

Lemma binds_trans s1 s2 s3 : binds s1 s2 -> binds s2 s3 -> binds s1 s3.
Proof.
  intros H12 H23 i Hf. specialize (H12 i Hf).
  rewrite <- H12. apply H23.
  unfold bound_configuration in H12. congruence.
Qed.

Lemma binds_update_slot N f s :
  (forall d, bound_configuration (f d) = bound_configuration d) ->
  binds s (update_slot N f s).
Proof.
  intros Hf i _. destruct (decide (N = i)) as [<-|Hne].
  - destruct (decide (N < length (data s))).
    + by rewrite get_slot_update_slot_eq.
    + by rewrite update_slot_out_of_range by lia.
  - by rewrite get_slot_update_slot_ne.
Qed.

Lemma binds_get_slot s s' :
  (forall i, get_slot i s' = get_slot i s) -> binds s s'.
Proof. intros H i _. by rewrite H. Qed.

Lemma binds_revert N s : binds s (snd (revert N s)).
Proof.
  unfold revert.
  pose proof (get_slot_auto_toggle_enter) as Hg. specialize (Hg N s) as Hn.
  assert (binds s (snd (auto_toggle_enter s))) as He
    by (apply binds_get_slot; intros i; apply get_slot_auto_toggle_enter).
  destruct (auto_toggle_enter s) as [lk s0]. simpl in *.
  eapply binds_trans; [exact He|].
  eapply binds_trans;
    [|apply binds_get_slot; intros i; apply get_slot_auto_toggle_leave].
  destruct (filled (get_slot N s0) && is_active (get_slot N s0));
    [|apply binds_refl].
  destruct (bool_decide _);
    (eapply binds_trans; [|by apply binds_update_slot]);
    (eapply binds_trans; [by apply (binds_update_slot N (put_is_active false))|]);
    by apply binds_get_slot.
Qed.

Lemma binds_construct_fill demangle N _func _priority _tool s :
  filled (get_slot N s) = false ->
  binds s (construct_fill demangle N _func _priority _tool s).
Proof.
  intros Hf i Hi. unfold construct_fill.
  assert (N <> i) as Hne by (intros ->; congruence).
  change (get_slot i (log ?e (log ?e' ?x))) with (get_slot i x).
  by rewrite get_slot_update_slot_ne.
Qed.

Lemma binds_construct_activate N s : binds s (construct_activate N s).
Proof.
  unfold construct_activate.
  eapply binds_trans; [by apply (binds_update_slot N (put_is_active true))|].
  by apply binds_get_slot.
Qed.

(** Once a slot is filled, no [construct] (whatever its arguments, on
    whatever slot) and no [revert] changes what the slot is bound to: symbol,
    label, priority, closures, suppression reference and binding. *)
Lemma construct_keeps_bound_configuration vo demangle N _func _priority _tool s :
  binds s (snd (construct vo demangle N _func _priority _tool s)).
Proof.
  unfold construct. destruct (StdString.empty _func); [apply binds_refl|].
  assert (binds s (snd (auto_toggle_enter s))) as He
    by (apply binds_get_slot; intros i; apply get_slot_auto_toggle_enter).
  destruct (auto_toggle_enter s) as [lk s0]. simpl in *.
  assert (binds s0 (snd (is_permitted vo _func (log init_storage s0)))) as Hp.
  { apply binds_get_slot. intros i. unfold is_permitted, debug_printf.
    by repeat case_match. }
  destruct (is_permitted vo _func (log init_storage s0)) as [ok s1].
  simpl in *.
  assert (binds s s1) as Hs1 by (by eapply binds_trans).
  assert (forall b x, binds x (auto_toggle_leave b x)) as Hl
    by (intros b x; apply binds_get_slot; intros i;
        apply get_slot_auto_toggle_leave).
  destruct ok; simpl; [|by eapply binds_trans].
  eapply binds_trans; [|apply Hl]. eapply binds_trans; [exact Hs1|]. clear.
  set (s2 := if debug (get_slot N s1) then s1
             else update_slot N (put_debug true) s1).
  assert (binds s1 s2) as H2
    by (subst s2; destruct (debug (get_slot N s1));
        [apply binds_refl | by apply binds_update_slot]).
  set (s3 := if filled (get_slot N s2) then s2
             else construct_fill demangle N _func _priority _tool s2).
  assert (binds s2 s3) as H3
    by (subst s3; destruct (filled (get_slot N s2)) eqn:E;
        [apply binds_refl | by apply binds_construct_fill]).
  set (s4 := if is_active (get_slot N s3) then s3
             else construct_activate N s3).
  assert (binds s3 s4) as H4
    by (subst s4; destruct (is_active (get_slot N s3));
        [apply binds_refl | apply binds_construct_activate]).
  assert (binds s4 (if ready (get_slot N s4) then s4 else snd (revert N s4)))
    as H5
    by (destruct (ready (get_slot N s4));
        [apply binds_refl | apply binds_revert]).
  eauto using binds_trans.
Qed.

(** ** The separator loop of [construct] terminates within its bound *)

Lemma string_length_append s1 s2 :
  String.length (s1 ++ s2) = String.length s1 + String.length s2.
Proof. induction s1 as [|c s1 IH]; simpl; [done | by rewrite IH]. Qed.

Lemma string_length_substring s n m :
  String.length (String.substring n m s) = Nat.min m (String.length s - n).
Proof.
  revert n m. induction s as [|c s IH]; intros [|n] [|m]; simpl;
    try done; rewrite IH; lia.
Qed.

Lemma find_some_bound pat s pos :
  0 < String.length pat ->
  StdString.find pat s = Some pos -> pos + String.length pat <= String.length s.
Proof.
  unfold StdString.find. intros Hpat H.
  pose proof (String.index_correct1 0 pos pat s H) as Hsub.
  apply (f_equal String.length) in Hsub.
  rewrite string_length_substring in Hsub. lia.
Qed.

Lemma erase1_length pos s :
  pos < String.length s ->
  S (String.length (StdString.erase1 pos s)) = String.length s.
Proof.
  intros H. unfold StdString.erase1.
  rewrite string_length_append, !string_length_substring. lia.
Qed.

(** [String.length _label] rounds are enough: the result of the loop holds
    no ["//"]. *)
Lemma erase_double_slashes_complete rounds _label :
  String.length _label <= rounds ->
  StdString.find "//" (erase_double_slashes rounds _label) = None.
Proof.
  revert _label. induction rounds as [|rounds IH]; intros _label Hlen.
  - destruct _label; simpl in *; [done | lia].
  - simpl. destruct (StdString.find "//" _label) as [pos|] eqn:E; [|done].
    apply IH.
    pose proof (find_some_bound "//" _ _ ltac:(simpl; lia) E) as Hb.
    simpl in Hb.
    pose proof (erase1_length pos _label ltac:(lia)). lia.
Qed.

(** * Further properties of the component *)

(** ** The symbol filter, completely *)

Lemma mpi_rejected_inv vo _func :
  mpi_rejected vo _func = true ->
  vo = true
  /\ exists itr, In itr mpi_reject_list
                 /\ (_func = itr \/ _func = tofortran itr).
Proof.
  unfold mpi_rejected. intros H.
  apply andb_prop in H as [H Hex]. apply andb_prop in H as [Hvo _].
  split; [done|].
  apply existsb_exists in Hex as (itr & Hin & Hor).
  exists itr. split; [done|].
  apply orb_prop in Hor as [E|E]; apply String.eqb_eq in E; auto.
Qed.


(** ** The Fortran spelling *)

Lemma tolower_idempotent c :
  StdString.tolower (StdString.tolower c) = StdString.tolower c.
Proof. destruct c as [[] [] [] [] [] [] [] []]; reflexivity. Qed.

Lemma string_map_append f s1 s2 :
  StdString.map f (s1 ++ s2) = StdString.map f s1 ++ StdString.map f s2.
Proof. induction s1 as [|c s1 IH]; simpl; [done | by rewrite IH]. Qed.

Lemma string_map_tolower_idempotent s :
  StdString.map StdString.tolower (StdString.map StdString.tolower s)
  = StdString.map StdString.tolower s.
Proof.
  induction s as [|c s IH]; simpl; [done|].
  by rewrite tolower_idempotent, IH.
Qed.

Lemma string_get_length_append s c :
  String.get (String.length s) (s ++ String c "") = Some c.
Proof. induction s as [|b s IH]; simpl; done. Qed.

Lemma string_back_append s c : StdString.back (s ++ String c "") = Some c.
Proof.
  unfold StdString.back. rewrite string_length_append. simpl.
  replace (String.length s + 1 - 1) with (String.length s) by lia.
  apply string_get_length_append.
Qed.

Lemma tofortran_cases _fort :
  let low := StdString.map StdString.tolower _fort in
  (StdString.back low = Some "_"%char /\ tofortran _fort = low)
  \/ (StdString.back low <> Some "_"%char /\ tofortran _fort = low ++ "_").
Proof.
  unfold tofortran. simpl.
  destruct (StdString.back (StdString.map StdString.tolower _fort)) as [c|];
    [|right; done].
  destruct c as [[] [] [] [] [] [] [] []];
    first [ left; done | right; done ].
Qed.

(** X2. The Fortran spelling that [is_permitted] compares with is in lower
    case, always ends in an underscore, gains at most that one character,
    and spelling a name twice changes nothing more. *)
Theorem tofortran_shape _fort :
  StdString.back (tofortran _fort) = Some "_"%char
  /\ StdString.map StdString.tolower (tofortran _fort) = tofortran _fort
  /\ tofortran (tofortran _fort) = tofortran _fort
  /\ String.length _fort <= String.length (tofortran _fort)
  /\ String.length (tofortran _fort) <= S (String.length _fort).
Proof.
  assert (forall s, String.length (StdString.map StdString.tolower s)
                    = String.length s) as Hlen
    by (induction s as [|c s IH]; simpl; congruence).
  assert (StdString.back (tofortran _fort) = Some "_"%char
          /\ StdString.map StdString.tolower (tofortran _fort)
             = tofortran _fort) as [Hb Hl].
  { destruct (tofortran_cases _fort) as [[Hb ->] | [Hb ->]].
    - split; [done | apply string_map_tolower_idempotent].
    - split; [apply string_back_append|].
      by rewrite string_map_append, string_map_tolower_idempotent. }
  split; [done|]. split; [done|]. split.
  - destruct (tofortran_cases (tofortran _fort)) as [[_ ->] | [Hn _]].
    + done.
    + by rewrite Hl in Hn.
  - destruct (tofortran_cases _fort) as [[_ ->] | [_ ->]].
    + rewrite Hlen. lia.
    + rewrite string_length_append, Hlen. simpl. lia.
Qed.

(** ** [construct], step by step *)

Section ConstructSteps.

Variables (vo : bool) (demangle : string -> string) (N : nat)
  (_func : string) (_priority : Z) (_tool : string).

Variable R : state -> state -> Prop.

Hypothesis R_refl : forall s, R s s.
Hypothesis R_trans : forall s1 s2 s3, R s1 s2 -> R s2 s3 -> R s1 s3.
Hypothesis R_enter : forall s, R s (snd (auto_toggle_enter s)).
Hypothesis R_leave : forall b s, R s (auto_toggle_leave b s).
Hypothesis R_init_storage : forall s, R s (log init_storage s).
Hypothesis R_is_permitted : forall s, R s (snd (is_permitted vo _func s)).
Hypothesis R_debug : forall s, R s (update_slot N (put_debug true) s).
Hypothesis R_fill : forall s,
  StdString.empty _func = false -> filled (get_slot N s) = false ->
  R s (construct_fill demangle N _func _priority _tool s).
Hypothesis R_activate : forall s,
  filled (get_slot N s) = true \/ length (data s) <= N ->
  R s (construct_activate N s).
Hypothesis R_revert : forall s, R s (snd (revert N s)).

(** A relation that every step of [construct] respects is respected by
    [construct]. *)
Lemma construct_steps s :
  R s (snd (construct vo demangle N _func _priority _tool s)).
Proof.
  unfold construct. destruct (StdString.empty _func) eqn:He; [apply R_refl|].
  pose proof (R_enter s) as H0.
  destruct (auto_toggle_enter s) as [lk s0]. simpl in *.
  pose proof (R_is_permitted (log init_storage s0)) as Hp.
  destruct (is_permitted vo _func (log init_storage s0)) as [ok s1].
  simpl in *.
  assert (R s s1) as Hs1 by eauto.
  destruct ok; simpl; [|eauto].
  eapply R_trans; [|apply R_leave]. eapply R_trans; [exact Hs1|]. clear Hs1 Hp H0.
  set (s2 := if debug (get_slot N s1) then s1
             else update_slot N (put_debug true) s1).
  assert (R s1 s2) as H2 by (subst s2; destruct (debug (get_slot N s1)); eauto).
  set (s3 := if filled (get_slot N s2) then s2
             else construct_fill demangle N _func _priority _tool s2).
  assert (R s2 s3) as H3
    by (subst s3; destruct (filled (get_slot N s2)) eqn:E; eauto).
  assert (filled (get_slot N s3) = true \/ length (data s3) <= N) as Hf3.
  { subst s3. destruct (filled (get_slot N s2)) eqn:E; [by left|].
    destruct (decide (N < length (data s2))) as [Hlt|Hge].
    - left. by rewrite get_slot_construct_fill.
    - right.
      rewrite (frame_length _ _ (proj1 (keeps_construct_fill demangle N _func
                                          _priority _tool s2))). lia. }
  set (s4 := if is_active (get_slot N s3) then s3
             else construct_activate N s3).
  assert (R s3 s4) as H4 by (subst s4; destruct (is_active (get_slot N s3)); eauto).
  assert (R s4 (if ready (get_slot N s4) then s4 else snd (revert N s4))) as H5
    by (destruct (ready (get_slot N s4)); eauto).
  eauto.
Qed.

End ConstructSteps.

(** ** Slots other than the one addressed *)

Lemma get_slot_revert_other N j s :
  N <> j -> get_slot j (snd (revert N s)) = get_slot j s.
Proof.
  intros Hne. unfold revert.
  pose proof (get_slot_auto_toggle_enter j s) as Hg.
  destruct (auto_toggle_enter s) as [lk s0]. simpl in *.
  rewrite get_slot_auto_toggle_leave, <- Hg.
  destruct (filled (get_slot N s0) && is_active (get_slot N s0)); [|done].
  destruct (bool_decide _);
    (change (get_slot j (update_slot N ?f (log ?e (log ?e' ?x))))
       with (get_slot j (update_slot N f x));
     by rewrite !get_slot_update_slot_ne).
Qed.

Lemma get_slot_construct_fill_other demangle N j _func _priority _tool s :
  N <> j ->
  get_slot j (construct_fill demangle N _func _priority _tool s) = get_slot j s.
Proof.
  intros Hne. unfold construct_fill.
  change (get_slot j (log ?e (log ?e' ?x))) with (get_slot j x).
  by rewrite get_slot_update_slot_ne.
Qed.

Lemma get_slot_construct_activate_other N j s :
  N <> j -> get_slot j (construct_activate N s) = get_slot j s.
Proof.
  intros Hne. unfold construct_activate.
  change (get_slot j (log ?e (log ?e' ?x))) with (get_slot j x).
  by rewrite get_slot_update_slot_ne.
Qed.

Lemma data_is_permitted vo _func s :
  data (snd (is_permitted vo _func s)) = data s.
Proof. unfold is_permitted, debug_printf. by repeat case_match. Qed.

Lemma get_slot_construct_other vo demangle N j _func _priority _tool s :
  N <> j ->
  get_slot j (snd (construct vo demangle N _func _priority _tool s))
  = get_slot j s.
Proof.
  intros Hne.
  apply (construct_steps vo demangle N _func _priority _tool
           (fun a b => get_slot j b = get_slot j a)); clear s.
  - done.
  - intros s1 s2 s3 H12 H23. by rewrite H23.
  - intros s. apply get_slot_auto_toggle_enter.
  - intros b s. apply get_slot_auto_toggle_leave.
  - done.
  - intros s. unfold get_slot. by rewrite data_is_permitted.
  - intros s. by apply get_slot_update_slot_ne.
  - intros s _ _. by apply get_slot_construct_fill_other.
  - intros s _. by apply get_slot_construct_activate_other.
  - intros s. by apply get_slot_revert_other.
Qed.

(** X3. [construct<N>] and [revert<N>] write to slot [N] only: every other
    slot of the table is exactly as it was, whatever the arguments and
    whatever the outcome. *)
Theorem construct_revert_touch_one_slot vo demangle N j _func _priority _tool s :
  N <> j ->
  get_slot j (snd (construct vo demangle N _func _priority _tool s))
    = get_slot j s
  /\ get_slot j (snd (revert N s)) = get_slot j s
  /\ length (data (snd (construct vo demangle N _func _priority _tool s)))
     = length (data s)
  /\ length (data (snd (revert N s))) = length (data s).
Proof.
  intros Hne. split; [by apply get_slot_construct_other|].
  split; [by apply get_slot_revert_other|]. split.
  - apply (frame_length _ _ (proj1 (keeps_construct vo demangle N _func
                                      _priority _tool s))).
  - apply (frame_length _ _ (proj1 (keeps_revert N s))).
Qed.

Lemma construct_revert_touch_one_slot_witness :
  let s := state_init 2 in
  0 <> 1
  /\ get_slot 1 (snd (construct true demangle_plain 0 "malloc" 0 "" s))
     = get_slot 1 s.
Proof.
  intros s. split; [done|].
  apply (construct_revert_touch_one_slot true demangle_plain 0 1 "malloc" 0 "" s).
  done.
Defined.

(** ** A refused symbol *)

Lemma trace_is_permitted vo _func s :
  trace (snd (is_permitted vo _func s)) = trace s
  \/ exists e, trace (snd (is_permitted vo _func s)) = (trace s ++ [e])%list
               /\ settings_debug s = true
               /\ (forall n, is_backend_wrap n e = false).
Proof.
  unfold is_permitted, debug_printf.
  repeat case_match; simpl; auto; right; eexists; split; done.
Qed.

Lemma construct_refused_effect vo demangle N _func _priority _tool s :
  StdString.empty _func = false ->
  fst (is_permitted vo _func s) = false ->
  let r := construct vo demangle N _func _priority _tool s in
  fst r = false
  /\ data (snd r) = data s
  /\ (forall n, installs n (snd r) = installs n s)
  /\ (settings_debug s = false ->
      trace (snd r) = (trace s ++ [init_storage])%list).
Proof.
  intros He Hp. unfold construct. rewrite He.
  pose proof (keeps_auto_toggle_enter s) as K0.
  pose proof (trace_auto_toggle_enter s) as T0.
  assert (data (snd (auto_toggle_enter s)) = data s
          /\ settings_debug (snd (auto_toggle_enter s)) = settings_debug s)
    as [D0 S0] by (unfold auto_toggle_enter; by destruct (gotcha_suppression s)).
  destruct (auto_toggle_enter s) as [lk s0]. simpl in *.
  assert (keeps s (log init_storage s0)) as K1
    by (eapply keeps_trans; [exact K0 | by apply keeps_log]).
  rewrite <- (is_permitted_frame vo _func _ _ K1) in Hp.
  pose proof (data_is_permitted vo _func (log init_storage s0)) as D1.
  pose proof (trace_is_permitted vo _func (log init_storage s0)) as T1.
  destruct (is_permitted vo _func (log init_storage s0)) as [ok s1].
  simpl in *. subst ok. simpl.
  assert (data (auto_toggle_leave lk s1) = data s1) as D2
    by (unfold auto_toggle_leave; by destruct (lk && gotcha_suppression s1)).
  split; [done|]. split; [congruence|]. split.
  - intros n. unfold installs. rewrite trace_auto_toggle_leave.
    destruct T1 as [-> | (e & -> & _ & Hw)];
      rewrite ?count_events_app, T0; simpl; rewrite ?Hw; simpl; lia.
  - intros Hd. rewrite trace_auto_toggle_leave.
    destruct T1 as [-> | (e & _ & Hdbg & _)]; [by rewrite T0|].
    congruence.
Qed.

(** X4. A non-empty symbol that the filter refuses makes [construct] return
    false, also on a slot that is already filled.  The slot table is left as
    it was and the backend is not called: the storage is initialised and, in
    debug mode only, one line is printed. *)
Theorem construct_refused vo demangle N _func _priority _tool s :
  StdString.empty _func = false ->
  fst (is_permitted vo _func s) = false ->
  let r := construct vo demangle N _func _priority _tool s in
  fst r = false
  /\ data (snd r) = data s
  /\ (forall n, installs n (snd r) = installs n s)
  /\ (settings_debug s = false ->
      trace (snd r) = (trace s ++ [init_storage])%list).
Proof. apply construct_refused_effect. Qed.

Lemma construct_refused_witness :
  let s := snd (construct true demangle_plain 0 "MPI_Init" 0 "" (state_init 1)) in
  (StdString.empty "MPI_Abort" = false
   /\ fst (is_permitted true "MPI_Abort" s) = false)
  /\ filled (get_slot 0 s) = true
  /\ fst (construct true demangle_plain 0 "MPI_Abort" 0 "" s) = false.
Proof.
  intros s.
  assert (StdString.empty "MPI_Abort" = false) as H1 by (vm_compute; reflexivity).
  assert (fst (is_permitted true "MPI_Abort" s) = false) as H2
    by (vm_compute; reflexivity).
  split; [exact (conj H1 H2)|]. split; [vm_compute; reflexivity|].
  exact (proj1 (construct_refused true demangle_plain 0 "MPI_Abort" 0 "" s
                  H1 H2)).
Defined.

(** ** What filling a slot records *)

Lemma construct_fill_bound vo demangle N _func _priority _tool s :
  N < length (data s) ->
  StdString.empty _func = false ->
  fst (is_permitted vo _func s) = true ->
  filled (get_slot N s) = false ->
  let r := construct vo demangle N _func _priority _tool s in
  let d := get_slot N (snd r) in
  fst r = true
  /\ bound_configuration d
     = (true, _priority, prefixed_label _tool (demangle _func), _func,
        constructor_construct _func _priority _tool, destructor_revert,
        (if bool_decide (_func ∈ suppresses s)
         then Some gotcha_suppression_get else suppression (get_slot N s)),
        Some _func)
  /\ (StdString.empty _tool = true
      \/ StdString.find (_tool ++ "/") (demangle _func) = Some 0 ->
      tool_id d = demangle _func)
  /\ (StdString.empty _tool = false ->
      StdString.find (_tool ++ "/") (demangle _func) <> Some 0 ->
      StdString.find "//" (tool_id d) = None).
Proof.
  intros HN He Hp Hf r d. subst r d.
  destruct (construct_slot vo demangle N _func _priority _tool s HN He Hp)
    as (A1 & _).
  split; [exact A1|].
  assert (bound_configuration
            (get_slot N (snd (construct vo demangle N _func _priority _tool s)))
          = (true, _priority, prefixed_label _tool (demangle _func), _func,
             constructor_construct _func _priority _tool, destructor_revert,
             (if bool_decide (_func ∈ suppresses s)
              then Some gotcha_suppression_get else suppression (get_slot N s)),
             Some _func)) as Hb.
  { rewrite (construct_permitted vo demangle N _func _priority _tool s He Hp).
    cbv zeta. cbn [fst snd]. rewrite get_slot_auto_toggle_leave.
    set (s0 := log init_storage (snd (auto_toggle_enter s))).
    assert (keeps s s0) as K0
      by (eapply keeps_trans; [apply keeps_auto_toggle_enter | by apply keeps_log]).
    assert (get_slot N s0 = get_slot N s) as G0
      by apply get_slot_auto_toggle_enter.
    set (s1 := if debug (get_slot N s0) then s0
               else update_slot N (put_debug true) s0).
    assert (keeps s0 s1) as K1
      by (subst s1; destruct (debug (get_slot N s0)); keeps_chain).
    assert (keeps s s1) as K01 by (by eapply keeps_trans).
    assert (N < length (data s1)) as HN1
      by (by rewrite (frame_length _ _ (proj1 K01))).
    assert (filled (get_slot N s1) = false
            /\ suppression (get_slot N s1) = suppression (get_slot N s))
      as [F1 S1].
    { subst s1. destruct (debug (get_slot N s0)).
      - by rewrite G0.
      - rewrite get_slot_update_slot_eq, G0; [done|].
        by rewrite (frame_length _ _ (proj1 K0)). }
    rewrite F1.
    set (s2 := construct_fill demangle N _func _priority _tool s1).
    assert (bound_configuration (get_slot N s2)
            = (true, _priority, prefixed_label _tool (demangle _func), _func,
               constructor_construct _func _priority _tool, destructor_revert,
               (if bool_decide (_func ∈ suppresses s)
                then Some gotcha_suppression_get
                else suppression (get_slot N s)),
               Some _func)) as B2.
    { subst s2. rewrite get_slot_construct_fill by done.
      unfold bound_configuration. simpl.
      by rewrite S1, (frame_suppresses _ _ (proj1 K01)). }
    assert (filled (get_slot N s2) = true) as F2
      by (apply (f_equal (fun x => x.1.1.1.1.1.1.1)) in B2; exact B2).
    set (s3 := if is_active (get_slot N s2) then s2
               else construct_activate N s2).
    assert (binds s2 s3) as H3
      by (subst s3; destruct (is_active (get_slot N s2));
          [apply binds_refl | apply binds_construct_activate]).
    assert (binds s3 (if ready (get_slot N s3) then s3 else snd (revert N s3)))
      as H4
      by (destruct (ready (get_slot N s3));
          [apply binds_refl | apply binds_revert]).
    rewrite <- B2. by apply (binds_trans _ _ _ H3 H4). }
  split; [exact Hb|].
  assert (tool_id (get_slot N
            (snd (construct vo demangle N _func _priority _tool s)))
          = prefixed_label _tool (demangle _func)) as Ht
    by (apply (f_equal (fun x => x.1.1.1.1.1.2)) in Hb; exact Hb).
  rewrite Ht. unfold prefixed_label, StdString.find_ne_0. split.
  - intros [-> | ->]; [done|]. by rewrite andb_false_r.
  - intros -> Hfind. simpl.
    destruct (StdString.find (_tool ++ "/") (demangle _func)) as [[|n]|];
      [done| |]; by apply erase_double_slashes_complete.
Qed.

(** X5. A [construct] call that fills a slot (non-empty, permitted symbol,
    slot not filled before) returns true and records its own arguments: the
    symbol, the priority, a constructor closure over all three arguments, the
    reverting destructor and the binding of the symbol.  The label is the
    demangled symbol when the tool name is empty or the demangled symbol
    already starts with the tool name and a slash; otherwise it is the tool
    name, a slash and the demangled symbol, and then it holds no doubled
    slash. *)
Theorem construct_fill_records vo demangle N _func _priority _tool s :
  N < length (data s) ->
  StdString.empty _func = false ->
  fst (is_permitted vo _func s) = true ->
  filled (get_slot N s) = false ->
  let r := construct vo demangle N _func _priority _tool s in
  let d := get_slot N (snd r) in
  fst r = true
  /\ bound_configuration d
     = (true, _priority, prefixed_label _tool (demangle _func), _func,
        constructor_construct _func _priority _tool, destructor_revert,
        (if bool_decide (_func ∈ suppresses s)
         then Some gotcha_suppression_get else suppression (get_slot N s)),
        Some _func)
  /\ (StdString.empty _tool = true
      \/ StdString.find (_tool ++ "/") (demangle _func) = Some 0 ->
      tool_id d = demangle _func)
  /\ (StdString.empty _tool = false ->
      StdString.find (_tool ++ "/") (demangle _func) <> Some 0 ->
      StdString.find "//" (tool_id d) = None).
Proof. apply construct_fill_bound. Qed.

Lemma construct_fill_records_witness :
  let s := state_init 1 in
  (0 < length (data s)
   /\ StdString.empty "malloc" = false
   /\ fst (is_permitted true "malloc" s) = true
   /\ filled (get_slot 0 s) = false)
  /\ fst (construct true demangle_plain 0 "malloc" 3 "tool/" s) = true.
Proof.
  intros s. split; [vm_compute; auto 6|].
  apply (construct_fill_records true demangle_plain 0 "malloc" 3 "tool/" s);
    vm_compute; auto.
Defined.

(** ** Histories of calls *)

Section Histories.

Variables (vo : bool) (demangle : string -> string).

Variable R : state -> state -> Prop.

Hypothesis R_refl : forall s, R s s.
Hypothesis R_trans : forall s1 s2 s3, R s1 s2 -> R s2 s3 -> R s1 s3.
Hypothesis R_construct : forall N f p t s,
  R s (snd (construct vo demangle N f p t s)).
Hypothesis R_revert : forall N s, R s (snd (revert N s)).
Hypothesis R_log : forall e s,
  (forall n, is_backend_wrap n e = false) -> R s (log e s).
Hypothesis R_ext : forall s s',
  data s' = data s -> trace s' = trace s -> R s s'.
Hypothesis R_imap : forall g s,
  (forall i, gentle (g i)) -> R s (with_data (imap g (data s)) s).
Hypothesis R_update : forall N f s, gentle f -> R s (update_slot N f s).

Lemma R_fmap f s : gentle f -> R s (with_data (f <$> data s) s).
Proof.
  intros Hf. rewrite <- (imap_const f (data s)). by apply R_imap.
Qed.

Lemma R_foldl {A : Type} (body : state -> A -> state) (l : list A) s :
  (forall acc x, R acc (body acc x)) -> R s (foldl body s l).
Proof.
  intros Hbody. revert s. induction l as [|x l IH]; intros s; simpl; eauto.
Qed.

Lemma R_invoke_constructor N s : R s (invoke_constructor vo demangle N s).
Proof.
  unfold invoke_constructor.
  eapply R_trans; [by apply (R_log (call_constructor N))|].
  destruct (constructor _); eauto.
Qed.

Lemma R_invoke_destructor N s : R s (invoke_destructor N s).
Proof.
  unfold invoke_destructor.
  eapply R_trans; [by apply (R_log (call_destructor N))|].
  destruct (destructor _); eauto.
Qed.

Lemma R_configure s : R s (configure vo demangle s).
Proof.
  unfold configure. destruct (is_configured s); [apply R_refl|].
  eapply R_trans; [by apply (R_ext s (with_is_configured true s))|].
  unfold run_initializer.
  eapply R_trans; [by apply (R_log call_initializer)|].
  apply R_foldl. intros acc [[[N f] p] t]. apply R_construct.
Qed.

Lemma R_disable s : R s (disable s).
Proof.
  unfold disable. destruct (is_configured s); [|apply R_refl].
  eapply R_trans; [by apply (R_ext s (with_is_configured false s))|].
  apply R_foldl. intros acc i.
  destruct (is_finalized (get_slot i acc)); [apply R_refl|].
  eapply R_trans; [|apply R_invoke_destructor].
  by apply R_update.
Qed.

Lemma R_configure_symbols N fs p t s :
  R s (configure_symbols vo demangle N fs p t s).
Proof.
  revert s. induction fs as [|f fs IH]; intros s; simpl; [apply R_refl|].
  pose proof (R_construct N f p t s) as Hc.
  destruct (construct vo demangle N f p t s) as [[] s']; simpl in *; eauto.
Qed.

Lemma R_start tid s : R s (start vo demangle tid s).
Proof.
  unfold start. destruct (is_finalizing s); [apply R_refl|].
  set (s1 := set_thread_started tid _ (with_started (started s + 1) s)).
  assert (R s s1) as H1 by (by apply R_ext).
  set (s2 := if _ && negb (is_configured s1) then configure vo demangle s1 else s1).
  assert (R s1 s2) as H2
    by (subst s2; destruct (_ && _); [apply R_configure | apply R_refl]).
  set (s3 := if (started s =? 0)%Z then _ else s2).
  assert (R s2 s3) as H3.
  { subst s3. destruct (started s =? 0)%Z; [|apply R_refl].
    eapply R_trans; [apply R_configure|].
    apply R_foldl. intros acc i.
    destruct (is_finalized (get_slot i acc));
      [apply R_refl | apply R_invoke_constructor]. }
  assert (R s3 (if (get_thread_started tid (with_started (started s + 1) s) =? 0)%Z
                then with_data ((fun d => put_ready (filled d) d) <$> data s3) s3
                else s3)) as H4.
  { destruct (_ =? 0)%Z; [|apply R_refl]. apply R_fmap.
    intros d. split; [done|]. split; [done|]. by intros ->. }
  eauto.
Qed.

Lemma R_stop tid s : R s (stop tid s).
Proof.
  unfold stop.
  match goal with
  | |- R s (if _ then for_each_slot _ ?x else _) => set (s2 := x)
  end.
  assert (R s s2) as H2.
  { subst s2. eapply R_trans; [|destruct (_ =? 0)%Z;
                                  [by apply R_fmap | apply R_refl]].
    by apply R_ext. }
  destruct (started s - 1 =? 0)%Z; [|exact H2].
  eapply R_trans; [exact H2|].
  apply R_foldl. intros acc i.
  destruct (is_finalized (get_slot i acc));
    [apply R_refl | apply R_invoke_destructor].
Qed.

(** A relation that [construct], [revert] and the elementary updates respect
    is respected by every call on the component. *)
Lemma R_run o s : R s (run vo demangle o s).
Proof.
  destruct o; simpl.
  - apply R_construct.
  - apply R_configure_symbols.
  - apply R_revert.
  - by apply R_ext.
  - by apply R_ext.
  - unfold set_ready. simpl. apply R_fmap.
    intros d. destruct (filled d) eqn:E; [|done].
    split; [done|]. split; [done|]. congruence.
  - unfold set_ready_values. simpl. apply R_imap.
    intros i d. destruct (filled d) eqn:E; [|done].
    destruct (values !! i); [|done].
    split; [done|]. split; [done|]. congruence.
  - apply R_configure.
  - apply R_disable.
  - unfold global_finalize. eapply R_trans; [|apply R_disable]. by apply R_ext.
  - unfold thread_init. apply R_fmap.
    intros d. split; [done|]. split; [done|]. by intros ->.
  - apply R_start.
  - apply R_stop.
Qed.

Lemma R_runs ops s : R s (runs vo demangle ops s).
Proof. apply R_foldl. intros acc o. apply R_run. Qed.

End Histories.

(** ** The bound configuration under every call *)

Lemma binds_data s s' : data s' = data s -> binds s s'.
Proof. intros H. apply binds_get_slot. intros i. unfold get_slot. by rewrite H. Qed.

Lemma binds_imap g s :
  (forall i, gentle (g i)) -> binds s (with_data (imap g (data s)) s).
Proof.
  intros Hg i _. unfold get_slot. simpl. rewrite list_lookup_imap.
  destruct (data s !! i) as [d|]; simpl; [|done]. apply (Hg i d).
Qed.

Lemma binds_run vo demangle o s : binds s (run vo demangle o s).
Proof.
  apply (R_run vo demangle binds).
  - apply binds_refl.
  - apply binds_trans.
  - intros. apply construct_keeps_bound_configuration.
  - intros. apply binds_revert.
  - intros. by apply binds_data.
  - intros s1 s2 Hd _. by apply binds_data.
  - apply binds_imap.
  - intros N f s' Hf. apply binds_update_slot. intros d. apply (Hf d).
Qed.

(** X6. Once a slot is filled, no history of calls ([construct] with other
    arguments, [revert], [start], [stop], [disable], [global_finalize],
    [thread_init], [set_ready], ...) changes what it is bound to: it stays
    filled, with the same symbol, label, priority, closures, suppression
    reference and binding.  A slot is filled at most once. *)
Theorem history_keeps_bound_configuration vo demangle ops s i :
  filled (get_slot i s) = true ->
  bound_configuration (get_slot i (runs vo demangle ops s))
  = bound_configuration (get_slot i s).
Proof.
  revert s. induction ops as [|o ops IH]; intros s Hf; [done|].
  change (runs vo demangle (o :: ops) s)
    with (runs vo demangle ops (run vo demangle o s)).
  pose proof (binds_run vo demangle o s i Hf) as Hb.
  rewrite IH, Hb; [done|].
  apply (f_equal (fun x => x.1.1.1.1.1.1.1)) in Hb. simpl in Hb. congruence.
Qed.

Lemma history_keeps_bound_configuration_witness :
  let s := snd (construct true demangle_plain 0 "malloc" 0 "" (state_init 1)) in
  let ops := [ op_start 0; op_construct 0 "free" 7 "tool"; op_stop 0;
               op_disable; op_construct 0 "calloc" 1 "" ] in
  filled (get_slot 0 s) = true
  /\ wrap_id (get_slot 0 (runs true demangle_plain ops s)) = "malloc".
Proof.
  intros s ops.
  assert (filled (get_slot 0 s) = true) as Hf by (vm_compute; reflexivity).
  split; [exact Hf|].
  pose proof (history_keeps_bound_configuration true demangle_plain ops s 0
                Hf) as H.
  assert (wrap_id (get_slot 0 (runs true demangle_plain ops s))
          = wrap_id (get_slot 0 s)) as Hw
    by (unfold bound_configuration in H; congruence).
  rewrite Hw. vm_compute. reflexivity.
Defined.

(** ** What every history keeps true of the table *)

Lemma slot_wf_gentle demangle f d :
  gentle f -> slot_wf demangle d ->
  slot_wf demangle (f d) /\ filled (f d) = filled d.
Proof.
  intros Hf Hwf. destruct (Hf d) as (Hb & Ha & Hr).
  unfold bound_configuration in Hb. injection Hb as E1 E2 E3 E4 E5 E6 E7 E8.
  split; [|done]. unfold slot_wf in *. rewrite E1.
  destruct (filled d).
  - rewrite E2, E3, E4, E5, E6, E8. exact Hwf.
  - destruct Hwf as (W1 & W2 & W3 & W4 & W5 & W6).
    rewrite Ha, E5, E6, E7, E8. auto 10.
Qed.

Lemma table_ok_ext demangle s s' :
  data s' = data s -> trace s' = trace s ->
  table_ok demangle s -> table_ok demangle s'.
Proof.
  intros Hd Ht Hok i d Hl. unfold installs. rewrite Ht.
  apply Hok. by rewrite <- Hd.
Qed.

Lemma table_ok_log demangle e s :
  (forall n, is_backend_wrap n e = false) ->
  table_ok demangle s -> table_ok demangle (log e s).
Proof.
  intros He Hok i d Hl. rewrite installs_log, He. simpl.
  rewrite Nat.add_0_r. by apply Hok.
Qed.

Lemma table_ok_update demangle N f s :
  (forall d, data s !! N = Some d -> slot_wf demangle d ->
             slot_wf demangle (f d) /\ filled (f d) = filled d) ->
  table_ok demangle s -> table_ok demangle (update_slot N f s).
Proof.
  intros Hf Hok i d' Hl. unfold update_slot in Hl. simpl in Hl.
  change (installs i (update_slot N f s)) with (installs i s).
  destruct (decide (N = i)) as [<-|Hne].
  - rewrite list_lookup_alter_eq in Hl.
    destruct (data s !! N) as [d|] eqn:E; [|done].
    injection Hl as <-. destruct (Hok N d E) as [Hw Hi].
    destruct (Hf d eq_refl Hw) as [Hw' Hfl]. by rewrite Hfl.
  - rewrite list_lookup_alter_ne in Hl by done. by apply Hok.
Qed.

Lemma table_ok_imap demangle g s :
  (forall i, gentle (g i)) ->
  table_ok demangle s -> table_ok demangle (with_data (imap g (data s)) s).
Proof.
  intros Hg Hok i d' Hl. simpl in Hl. rewrite list_lookup_imap in Hl.
  change (installs i (with_data (imap g (data s)) s)) with (installs i s).
  destruct (data s !! i) as [d|] eqn:E; [|done]. injection Hl as <-.
  destruct (Hok i d E) as [Hw Hi].
  destruct (slot_wf_gentle demangle (g i) d (Hg i) Hw) as [Hw' Hfl].
  by rewrite Hfl.
Qed.

Lemma get_slot_lookup N s d : data s !! N = Some d -> get_slot N s = d.
Proof. intros H. unfold get_slot. by rewrite H. Qed.

Lemma table_ok_revert demangle N s :
  table_ok demangle s -> table_ok demangle (snd (revert N s)).
Proof.
  intros Hok. unfold revert.
  assert (table_ok demangle (snd (auto_toggle_enter s))) as H0.
  { apply (table_ok_ext demangle s); [| |done];
      unfold auto_toggle_enter; by destruct (gotcha_suppression s). }
  destruct (auto_toggle_enter s) as [lk s0]. simpl in *.
  eapply table_ok_ext;
    [| apply trace_auto_toggle_leave |];
    [unfold auto_toggle_leave; by destruct (lk && gotcha_suppression _)|].
  destruct (filled (get_slot N s0) && is_active (get_slot N s0)) eqn:E;
    [|done].
  apply andb_prop in E as [Ef _].
  assert (forall v, table_ok demangle
            (update_slot N (put_ready v)
               (log (check_error N "get priority")
                  (log (backend_set_priority (tool_id (get_slot N s0)) (-1))
                     (update_slot N (put_is_active false) s0))))) as Hgen.
  { intros v. apply table_ok_update.
    - intros d Hd Hw. split; [|done]. simpl in Hd.
      unfold slot_wf in *. simpl.
      destruct (filled d) eqn:Efd; [done|].
      rewrite list_lookup_alter_eq in Hd.
      destruct (data s0 !! N) as [d0|] eqn:E0; [|done].
      injection Hd as <-. rewrite (get_slot_lookup _ _ _ E0) in Ef.
      simpl in Efd. congruence.
    - apply table_ok_log; [done|]. apply table_ok_log; [done|].
      apply table_ok_update; [|done].
      intros d Hd Hw. split; [|done].
      rewrite (get_slot_lookup _ _ _ Hd) in Ef.
      unfold slot_wf in *. simpl. by rewrite Ef in *. }
  destruct (bool_decide _); apply Hgen.
Qed.

Lemma table_ok_construct_fill demangle N _func _priority _tool s :
  StdString.empty _func = false ->
  filled (get_slot N s) = false ->
  table_ok demangle s ->
  table_ok demangle (construct_fill demangle N _func _priority _tool s).
Proof.
  intros He Hf Hok i d' Hl. unfold construct_fill in *. simpl in Hl.
  unfold installs. simpl.
  rewrite <- !app_assoc, count_events_app. simpl.
  fold (installs i s).
  destruct (decide (N = i)) as [<-|Hne].
  - rewrite list_lookup_alter_eq in Hl.
    destruct (data s !! N) as [d|] eqn:E; [|done].
    injection Hl as <-. destruct (Hok N d E) as [Hw Hi].
    rewrite (get_slot_lookup _ _ _ E) in Hf.
    rewrite Hi, Hf, Nat.eqb_refl. simpl. split; [|done].
    unfold slot_wf. simpl. repeat split; try done. by exists _tool.
  - rewrite list_lookup_alter_ne in Hl by done.
    destruct (Hok i d' Hl) as [Hw Hi]. split; [done|].
    rewrite (proj2 (Nat.eqb_neq N i)) by done. simpl. lia.
Qed.

Lemma table_ok_construct_activate demangle N s :
  filled (get_slot N s) = true \/ length (data s) <= N ->
  table_ok demangle s -> table_ok demangle (construct_activate N s).
Proof.
  intros Hf Hok. unfold construct_activate.
  apply table_ok_log; [done|]. apply table_ok_log; [done|].
  apply table_ok_update; [|done].
  intros d Hd Hw. split; [|done].
  destruct Hf as [Hf|Hge].
  - rewrite (get_slot_lookup _ _ _ Hd) in Hf.
    unfold slot_wf in *. simpl. by rewrite Hf in *.
  - apply lookup_lt_Some in Hd. lia.
Qed.

Lemma gentle_put_debug v : gentle (put_debug v).
Proof. by intros d. Qed.

Lemma gentle_put_is_finalized v : gentle (put_is_finalized v).
Proof. by intros d. Qed.

Lemma table_ok_construct vo demangle N _func _priority _tool s :
  table_ok demangle s ->
  table_ok demangle (snd (construct vo demangle N _func _priority _tool s)).
Proof.
  apply (construct_steps vo demangle N _func _priority _tool
           (fun a b => table_ok demangle a -> table_ok demangle b)); clear s.
  - done.
  - eauto.
  - intros s. apply table_ok_ext; [|apply trace_auto_toggle_enter].
    unfold auto_toggle_enter. by destruct (gotcha_suppression s).
  - intros b s. apply table_ok_ext; [|apply trace_auto_toggle_leave].
    unfold auto_toggle_leave. by destruct (b && gotcha_suppression s).
  - intros s. by apply table_ok_log.
  - intros s Hok.
    destruct (trace_is_permitted vo _func s) as [Ht | (e & Ht & _ & He)].
    + by apply (table_ok_ext demangle s); [apply data_is_permitted| |].
    + apply (table_ok_ext demangle (log e s));
        [exact (data_is_permitted vo _func s) | exact Ht
        | by apply table_ok_log].
  - intros s. apply table_ok_update. intros d _.
    apply slot_wf_gentle, gentle_put_debug.
  - intros s. apply table_ok_construct_fill.
  - intros s. apply table_ok_construct_activate.
  - intros s. apply table_ok_revert.
Qed.

Lemma table_ok_run vo demangle o s :
  table_ok demangle s -> table_ok demangle (run vo demangle o s).
Proof.
  apply (R_run vo demangle
           (fun a b => table_ok demangle a -> table_ok demangle b)).
  - done.
  - eauto.
  - intros. by apply table_ok_construct.
  - intros. by apply table_ok_revert.
  - intros. by apply table_ok_log.
  - intros s1 s2 Hd Ht. by apply table_ok_ext.
  - intros. by apply table_ok_imap.
  - intros N f s' Hf. apply table_ok_update. intros d _.
    by apply slot_wf_gentle.
Qed.

Lemma table_ok_runs vo demangle ops s :
  table_ok demangle s -> table_ok demangle (runs vo demangle ops s).
Proof.
  revert s. induction ops as [|o ops IH]; intros s Hok; [done|].
  apply IH. by apply table_ok_run.
Qed.

Lemma table_ok_pristine demangle s : pristine s -> table_ok demangle s.
Proof.
  intros [Hd Ht] i d Hl. rewrite (Hd i d Hl). unfold installs. rewrite Ht.
  split; [|done]. unfold slot_wf. simpl. auto 10.
Qed.

Lemma length_data_run vo demangle o s :
  length (data (run vo demangle o s)) = length (data s).
Proof.
  apply (R_run vo demangle (fun a b => length (data b) = length (data a))).
  - done.
  - intros s1 s2 s3 H12 H23. by rewrite H23.
  - intros. apply (frame_length _ _ (proj1 (keeps_construct _ _ _ _ _ _ _))).
  - intros. apply (frame_length _ _ (proj1 (keeps_revert _ _))).
  - done.
  - intros s1 s2 Hd _. by rewrite Hd.
  - intros. simpl. apply length_imap.
  - intros. apply length_data_update_slot.
Qed.

(** X7. Starting from a table of empty slots, after any history of calls the
    table has its original size and every slot is well formed: a slot that
    is active or ready is filled; a filled slot has a non-empty symbol, the
    reverting destructor, the binding of its symbol and a constructor
    closure over its own symbol and priority; an empty slot still has the
    closures, suppression reference and binding it was created with. *)
Theorem history_table_well_formed vo demangle ops s i d :
  pristine s ->
  data (runs vo demangle ops s) !! i = Some d ->
  length (data (runs vo demangle ops s)) = length (data s)
  /\ (is_active d = true -> filled d = true)
  /\ (ready d = true -> filled d = true)
  /\ (filled d = true ->
      StdString.empty (wrap_id d) = false
      /\ destructor d = destructor_revert
      /\ binding d = Some (wrap_id d)
      /\ exists _tool,
           constructor d
             = constructor_construct (wrap_id d) (priority d) _tool
           /\ tool_id d = prefixed_label _tool (demangle (wrap_id d)))
  /\ (filled d = false ->
      constructor d = constructor_default
      /\ destructor d = destructor_default
      /\ suppression d = None /\ binding d = None).
Proof.
  intros Hp Hl. split.
  { clear. revert s. induction ops as [|o ops IH]; intros s; [done|].
    change (runs vo demangle (o :: ops) s)
      with (runs vo demangle ops (run vo demangle o s)).
    by rewrite IH, length_data_run. }
  destruct (table_ok_runs vo demangle ops s (table_ok_pristine demangle s Hp)
              i d Hl) as [Hw _].
  unfold slot_wf in Hw. destruct (filled d).
  - repeat split; try done; by destruct Hw as (? & ? & ? & ?).
  - destruct Hw as (W1 & W2 & W3 & W4 & W5 & W6).
    repeat split; try done; congruence.
Qed.

Lemma history_table_well_formed_witness :
  let s := state_init 1 in
  let ops := [ op_construct 0 "malloc" 0 "tool"; op_start 0; op_stop 0 ] in
  (pristine s
   /\ data (runs true demangle_plain ops s) !! 0
      = Some (get_slot 0 (runs true demangle_plain ops s)))
  /\ length (data (runs true demangle_plain ops s)) = length (data s).
Proof.
  intros s ops.
  assert (pristine s) as Hp.
  { split; [|done]. intros [|i] d; simpl; [by intros [= <-] | done]. }
  assert (data (runs true demangle_plain ops s) !! 0
          = Some (get_slot 0 (runs true demangle_plain ops s))) as Hl
    by (vm_compute; reflexivity).
  split; [exact (conj Hp Hl)|].
  exact (proj1 (history_table_well_formed true demangle_plain ops s 0 _ Hp Hl)).
Defined.

(** X8. Starting from a table of empty slots, after any history of calls the
    backend has been asked to install the binding of a slot exactly once if
    the slot is filled and never if it is empty: no call installs a binding
    twice, and none fills a slot without installing it. *)
Theorem history_installs_once vo demangle ops s i d :
  pristine s ->
  data (runs vo demangle ops s) !! i = Some d ->
  installs i (runs vo demangle ops s) = b2n (filled d).
Proof.
  intros Hp Hl.
  apply (table_ok_runs vo demangle ops s (table_ok_pristine demangle s Hp)
           i d Hl).
Qed.

Lemma history_installs_once_witness :
  let s := state_init 1 in
  let ops := [ op_construct 0 "malloc" 0 ""; op_start 0;
               op_construct 0 "malloc" 0 ""; op_stop 0; op_start 0 ] in
  (pristine s
   /\ data (runs true demangle_plain ops s) !! 0
      = Some (get_slot 0 (runs true demangle_plain ops s)))
  /\ installs 0 (runs true demangle_plain ops s) = 1.
Proof.
  intros s ops.
  assert (pristine s) as Hp.
  { split; [|done]. intros [|i] d; simpl; [by intros [= <-] | done]. }
  assert (data (runs true demangle_plain ops s) !! 0
          = Some (get_slot 0 (runs true demangle_plain ops s))) as Hl
    by (vm_compute; reflexivity).
  split; [exact (conj Hp Hl)|].
  rewrite (history_installs_once true demangle_plain ops s 0 _ Hp Hl).
  vm_compute. reflexivity.
Defined.

(** ** [configure] on a list of symbols *)

Lemma construct_refused_any vo demangle N g _priority _tool s :
  StdString.empty g = true \/ fst (is_permitted vo g s) = false ->
  let r := construct vo demangle N g _priority _tool s in
  fst r = false /\ data (snd r) = data s.
Proof.
  intros Hr. destruct (StdString.empty g) eqn:He.
  - unfold construct. by rewrite He.
  - destruct Hr as [?|Hp]; [done|].
    destruct (construct_refused_effect vo demangle N g _priority _tool s He Hp)
      as (? & ? & _). done.
Qed.

(** X9. [configure] on a vector of symbols stops at the first symbol that
    [construct] accepts: with refused symbols (empty or filtered out) in
    front of a non-empty permitted one, the result does not depend on the
    symbols behind it, the slot is filled afterwards, and a slot that was
    empty is bound to that first accepted symbol.  Refused symbols alone
    leave the table as it was. *)
Theorem configure_symbols_first_success vo demangle N pre _func post
    _priority _tool s :
  N < length (data s) ->
  Forall (fun g => StdString.empty g = true
                   \/ fst (is_permitted vo g s) = false) pre ->
  StdString.empty _func = false ->
  fst (is_permitted vo _func s) = true ->
  let s' := configure_symbols vo demangle N (pre ++ _func :: post)
              _priority _tool s in
  s' = configure_symbols vo demangle N (pre ++ [_func]) _priority _tool s
  /\ data (configure_symbols vo demangle N pre _priority _tool s) = data s
  /\ filled (get_slot N s') = true
  /\ (filled (get_slot N s) = false -> wrap_id (get_slot N s') = _func).
Proof.
  intros HN Hpre He Hp. simpl.
  revert s HN Hpre Hp. induction pre as [|g pre IH]; intros s HN Hpre Hp.
  - simpl.
    destruct (construct_slot vo demangle N _func _priority _tool s HN He Hp)
      as (A1 & A2 & _).
    pose proof (construct_fill_bound vo demangle N _func _priority _tool s
                  HN He Hp) as Hb.
    destruct (construct vo demangle N _func _priority _tool s) as [ok s1].
    simpl in *. subst ok. repeat split; try done.
    intros Hf. destruct (Hb Hf) as (_ & Hbc & _).
    apply (f_equal (fun x => x.1.1.1.1.2)) in Hbc. exact Hbc.
  - apply Forall_cons in Hpre as [Hg Hpre]. simpl.
    destruct (construct_refused_any vo demangle N g _priority _tool s Hg)
      as [Hfalse Hdata].
    pose proof (keeps_construct vo demangle N g _priority _tool s) as K.
    destruct (construct vo demangle N g _priority _tool s) as [ok s1].
    simpl in *. subst ok.
    assert (N < length (data s1)) as HN1 by (by rewrite Hdata).
    assert (Forall (fun g0 => StdString.empty g0 = true
                              \/ fst (is_permitted vo g0 s1) = false) pre)
      as Hpre1.
    { eapply Forall_impl; [exact Hpre|]. intros g0 [?|?]; [by left|].
      right. by rewrite (is_permitted_frame _ _ _ _ K). }
    assert (fst (is_permitted vo _func s1) = true) as Hp1
      by (by rewrite (is_permitted_frame _ _ _ _ K)).
    destruct (IH s1 HN1 Hpre1 Hp1) as (I1 & I2 & I3 & I4).
    assert (get_slot N s1 = get_slot N s) as Hg1
      by (unfold get_slot; by rewrite Hdata).
    rewrite <- Hg1, <- Hdata. done.
Qed.

Lemma configure_symbols_first_success_witness :
  let s := state_init 1 in
  (0 < length (data s)
   /\ Forall (fun g => StdString.empty g = true
                       \/ fst (is_permitted true g s) = false)
        [""; "MPI_Abort"]
   /\ StdString.empty "malloc" = false
   /\ fst (is_permitted true "malloc" s) = true)
  /\ wrap_id (get_slot 0 (configure_symbols true demangle_plain 0
                            ([""; "MPI_Abort"] ++ "malloc" :: ["free"]) 0 "" s))
     = "malloc".
Proof.
  intros s.
  assert (Forall (fun g => StdString.empty g = true
                           \/ fst (is_permitted true g s) = false)
            [""; "MPI_Abort"]) as Hpre
    by (constructor; [left; vm_compute; reflexivity|];
        constructor; [right; vm_compute; reflexivity|]; constructor).
  assert (0 < length (data s)) as H0 by (simpl; lia).
  assert (StdString.empty "malloc" = false) as H1 by (vm_compute; reflexivity).
  assert (fst (is_permitted true "malloc" s) = true) as H2
    by (vm_compute; reflexivity).
  assert (filled (get_slot 0 s) = false) as H3 by (vm_compute; reflexivity).
  split; [exact (conj H0 (conj Hpre (conj H1 H2)))|].
  destruct (configure_symbols_first_success true demangle_plain 0
              [""; "MPI_Abort"] "malloc" ["free"] 0 "" s H0 Hpre H1 H2)
    as (_ & _ & _ & H4).
  exact (H4 H3).
Defined.

(** ** One-time configuration *)

Lemma initializer_calls_log e s :
  initializer_calls (log e s)
  = initializer_calls s
    + b2n (match e with call_initializer => true | _ => false end).
Proof.
  unfold initializer_calls, log. simpl. rewrite count_events_app. simpl. lia.
Qed.

(** [settled s s']: the step left [is_configured] alone and did not run the
    initializer. *)
Lemma settled_construct vo demangle N _func _priority _tool s :
  let s' := snd (construct vo demangle N _func _priority _tool s) in
  is_configured s' = is_configured s
  /\ initializer_calls s' = initializer_calls s.
Proof.
  assert (forall i s0,
    is_configured (snd (revert i s0)) = is_configured s0
    /\ initializer_calls (snd (revert i s0)) = initializer_calls s0) as Hrev.
  { intros i s0. unfold revert, initializer_calls.
    assert (is_configured (snd (auto_toggle_enter s0)) = is_configured s0)
      as Hc by (unfold auto_toggle_enter; by destruct (gotcha_suppression s0)).
    pose proof (trace_auto_toggle_enter s0) as Ht.
    destruct (auto_toggle_enter s0) as [lk s1]. simpl in *.
    rewrite trace_auto_toggle_leave, <- Ht, <- Hc.
    split.
    - unfold auto_toggle_leave.
      by repeat (case_match; simpl).
    - destruct (filled (get_slot i s1) && is_active (get_slot i s1)); [|done].
      destruct (bool_decide _); simpl;
        rewrite <- !app_assoc, count_events_app; simpl; lia. }
  apply (construct_steps vo demangle N _func _priority _tool
           (fun a b => is_configured b = is_configured a
                       /\ initializer_calls b = initializer_calls a)); clear s.
  - done.
  - intros s1 s2 s3 [] []. split; congruence.
  - intros s. unfold initializer_calls. rewrite trace_auto_toggle_enter.
    unfold auto_toggle_enter. by destruct (gotcha_suppression s).
  - intros b s. unfold initializer_calls. rewrite trace_auto_toggle_leave.
    unfold auto_toggle_leave. by destruct (b && gotcha_suppression s).
  - intros s. split; [done|]. rewrite initializer_calls_log. simpl. lia.
  - intros s. unfold is_permitted, debug_printf.
    repeat case_match; simpl; split; try done;
      rewrite initializer_calls_log; simpl; lia.
  - done.
  - intros s _ _. split; [done|]. unfold construct_fill.
    rewrite !initializer_calls_log. simpl.
    change (initializer_calls (update_slot N ?f ?x)) with (initializer_calls x).
    rewrite !initializer_calls_log. simpl. lia.
  - intros s _. split; [done|]. unfold construct_activate.
    rewrite !initializer_calls_log. simpl.
    change (initializer_calls (update_slot N ?f ?x)) with (initializer_calls x).
    lia.
  - intros s. apply Hrev.
Qed.

(** X10. [configure()] runs the initializer only when the component is not
    configured, and then exactly once; it always leaves the component
    configured, so a second [configure()] changes nothing. *)
Theorem configure_once vo demangle s :
  is_configured (configure vo demangle s) = true
  /\ initializer_calls (configure vo demangle s)
     = initializer_calls s + b2n (negb (is_configured s))
  /\ configure vo demangle (configure vo demangle s) = configure vo demangle s.
Proof.
  assert (is_configured (configure vo demangle s) = true
          /\ initializer_calls (configure vo demangle s)
             = initializer_calls s + b2n (negb (is_configured s))) as [H1 H2].
  { unfold configure. destruct (is_configured s) eqn:E.
    - split; [done|]. simpl. lia.
    - unfold run_initializer.
      assert (forall l a,
        is_configured (foldl (fun acc '(N, f, p, t) =>
            snd (configure_symbol vo demangle N f p t acc)) a l)
          = is_configured a
        /\ initializer_calls (foldl (fun acc '(N, f, p, t) =>
            snd (configure_symbol vo demangle N f p t acc)) a l)
          = initializer_calls a) as Hfold.
      { induction l as [|[[[N f] p] t] l IH]; intros a; [done|]. simpl.
        destruct (IH (snd (configure_symbol vo demangle N f p t a))) as [-> ->].
        apply settled_construct. }
      destruct (Hfold (initializer (with_is_configured true s))
                  (log call_initializer (with_is_configured true s)))
        as [-> ->].
      split; [done|]. rewrite initializer_calls_log. done. }
  split; [done|]. split; [done|].
  unfold configure at 1. by rewrite H1.
Qed.

(** ** Loops over the table, slot by slot *)

Lemma get_slot_revert N s :
  get_slot N (snd (revert N s))
  = revert_slot_of (default_ready s) (suppresses s) (get_slot N s).
Proof.
  unfold revert_slot_of.
  destruct (filled (get_slot N s) && is_active (get_slot N s)) eqn:E.
  - destruct (decide (N < length (data s))) as [HN|HN].
    + by apply revert_slot.
    + rewrite get_slot_out_of_range in E by lia. done.
  - by rewrite (revert_inactive N s E).
Qed.

Lemma get_slot_invoke_destructor N s :
  get_slot N (invoke_destructor N s)
  = destructor_slot_of (default_ready s) (suppresses s) (get_slot N s).
Proof.
  unfold invoke_destructor, destructor_slot_of.
  change (get_slot N (log (call_destructor N) s)) with (get_slot N s).
  destruct (destructor (get_slot N s)); [done|].
  apply (get_slot_revert N (log (call_destructor N) s)).
Qed.

Lemma get_slot_invoke_destructor_other N j s :
  N <> j -> get_slot j (invoke_destructor N s) = get_slot j s.
Proof.
  intros Hne. unfold invoke_destructor.
  destruct (destructor _); [done|].
  by rewrite get_slot_revert_other.
Qed.

Section SlotLoop.

Variable body : nat -> state -> state.
Variable g : nat -> gotcha_data -> gotcha_data.
Variable C : state -> Prop.
Variable in_range : nat -> Prop.

Hypothesis C_body : forall i acc, C acc -> C (body i acc).
Hypothesis body_self : forall i acc,
  C acc -> in_range i -> get_slot i (body i acc) = g i (get_slot i acc).
Hypothesis body_other : forall i j acc,
  i <> j -> get_slot j (body i acc) = get_slot j acc.

(** A loop whose round [i] rewrites slot [i] by [g i] and no other slot
    rewrites every visited slot once. *)
Lemma slot_loop l s :
  NoDup l -> Forall in_range l -> C s ->
  C (foldl (fun acc i => body i acc) s l)
  /\ forall j, get_slot j (foldl (fun acc i => body i acc) s l)
               = if decide (j ∈ l) then g j (get_slot j s) else get_slot j s.
Proof.
  revert s. induction l as [|i l IH]; intros s Hnd Hin HC; cbn [foldl].
  - split; [done|]. intros j. by rewrite decide_False by apply not_elem_of_nil.
  - apply NoDup_cons in Hnd as [Hi Hnd]. apply Forall_cons in Hin as [Hri Hin].
    destruct (IH (body i s) Hnd Hin (C_body i s HC)) as [HC' Hslots].
    split; [done|]. intros j. rewrite Hslots.
    destruct (decide (j = i)) as [->|Hne].
    + rewrite (decide_False (P := i ∈ l)) by done.
      rewrite decide_True by (apply elem_of_cons; by left).
      by apply body_self.
    + rewrite body_other by done.
      destruct (decide (j ∈ l)).
      * by rewrite decide_True by (apply elem_of_cons; by right).
      * by rewrite decide_False by (by apply not_elem_of_cons).
Qed.

End SlotLoop.

Lemma same_revert_settings_invoke_destructor i s :
  same_revert_settings s (invoke_destructor i s).
Proof.
  destruct (invoke_destructor_frame i s) as [F _].
  assert (is_configured (invoke_destructor i s) = is_configured s
          /\ thread_started (invoke_destructor i s) = thread_started s)
    as [Hc Ht].
  { unfold invoke_destructor. destruct (destructor _); [done|].
    unfold revert.
    assert (is_configured (snd (auto_toggle_enter (log (call_destructor i) s)))
            = is_configured s
            /\ thread_started (snd (auto_toggle_enter (log (call_destructor i) s)))
               = thread_started s) as [Hc Ht]
      by (unfold auto_toggle_enter; by destruct (gotcha_suppression _)).
    destruct (auto_toggle_enter _) as [lk s1]. simpl in *.
    rewrite <- Hc, <- Ht.
    unfold auto_toggle_leave. by repeat (case_match; simpl). }
  repeat split; try apply F; done.
Qed.

(** ** [disable()] *)

Lemma disable_slots s :
  is_configured s = true ->
  is_configured (disable s) = false
  /\ length (data (disable s)) = length (data s)
  /\ started (disable s) = started s
  /\ thread_started (disable s) = thread_started s
  /\ forall j, j < length (data s) ->
       get_slot j (disable s)
       = disable_slot_of (default_ready s) (suppresses s) (get_slot j s).
Proof.
  intros Hc. unfold disable, for_each_slot. rewrite Hc.
  set (s0 := with_is_configured false s).
  destruct (slot_loop
    (fun i acc => if is_finalized (get_slot i acc) then acc
                  else invoke_destructor i
                         (update_slot i (put_is_finalized true) acc))
    (fun _ => disable_slot_of (default_ready s) (suppresses s))
    (same_revert_settings s0)
    (fun i => i < length (data s))) with (l := seq 0 (length (data s0))) (s := s0)
    as [(_ & _ & HL & HC & HS & HT) Hslots].
  - intros i acc HCa. destruct (is_finalized (get_slot i acc)); [done|].
    destruct HCa as (A1 & A2 & A3 & A4 & A5 & A6).
    destruct (same_revert_settings_invoke_destructor i
                (update_slot i (put_is_finalized true) acc))
      as (B1 & B2 & B3 & B4 & B5 & B6).
    rewrite length_data_update_slot in B3.
    repeat split; simpl in *; congruence.
  - intros i acc (A1 & A2 & A3 & A4 & _) Hi. unfold disable_slot_of.
    destruct (is_finalized (get_slot i acc)) eqn:E; [done|].
    rewrite get_slot_invoke_destructor. simpl.
    rewrite get_slot_update_slot_eq by (simpl in A3; lia).
    by rewrite A1, A2.
  - intros i j acc Hne. destruct (is_finalized (get_slot i acc)); [done|].
    rewrite get_slot_invoke_destructor_other by done.
    by rewrite get_slot_update_slot_ne.
  - apply NoDup_seq.
  - apply Forall_forall. intros i Hi. apply elem_of_seq in Hi. simpl in Hi. lia.
  - done.
  - split; [exact HC|]. split; [exact HL|]. split; [exact HS|].
    split; [exact HT|]. intros j Hj.
    rewrite Hslots. rewrite decide_True by (apply elem_of_seq; simpl; lia).
    done.
Qed.

(** X11. [disable()] does nothing when the component is not configured.
    When it is, it leaves the component unconfigured and every slot
    finalized; a slot that was finalized already is left alone, every other
    slot has its destructor closure invoked once, which reverts the binding
    of a filled slot.  A second [disable()] changes nothing. *)
Theorem disable_finalizes_once s :
  (is_configured s = false -> disable s = s)
  /\ disable (disable s) = disable s
  /\ (is_configured s = true ->
      is_configured (disable s) = false
      /\ forall j, j < length (data s) ->
           is_finalized (get_slot j (disable s)) = true
           /\ get_slot j (disable s)
              = disable_slot_of (default_ready s) (suppresses s) (get_slot j s)
           /\ destructor_calls j (disable s)
              = destructor_calls j s
                + b2n (negb (is_finalized (get_slot j s)))).
Proof.
  assert (is_configured s = false -> disable s = s) as H1
    by (intros H; unfold disable; by rewrite H).
  split; [exact H1|].
  destruct (is_configured s) eqn:Hc.
  2: { split; [by rewrite !H1 | done]. }
  destruct (disable_slots s Hc) as (D1 & D2 & _ & _ & D3).
  split; [unfold disable at 1; by rewrite D1|].
  intros _. split; [done|]. intros j Hj. rewrite D3 by done.
  split; [|split; [done|]].
  - unfold disable_slot_of. destruct (is_finalized (get_slot j s)) eqn:E;
      [done|].
    unfold destructor_slot_of, revert_slot_of. simpl.
    by repeat (case_match; simpl).
  - unfold disable, for_each_slot. rewrite Hc.
    set (s0 := with_is_configured false s).
    assert (forall l a, NoDup l ->
      let a' := foldl (fun acc i =>
                  if is_finalized (get_slot i acc) then acc
                  else invoke_destructor i
                         (update_slot i (put_is_finalized true) acc)) a l in
      (forall i, i ∉ l -> get_slot i a' = get_slot i a)
      /\ forall n, destructor_calls n a'
           = destructor_calls n a
             + (if decide (n ∈ l)
                then b2n (negb (is_finalized (get_slot n a))) else 0)) as Hloop.
    { induction l as [|i l IH]; intros a Hnd; cbn [foldl].
      - split; [done|]. intros n.
        rewrite decide_False by apply not_elem_of_nil. lia.
      - apply NoDup_cons in Hnd as [Hi Hnd].
        set (a1 := if is_finalized (get_slot i a) then a
                   else invoke_destructor i
                          (update_slot i (put_is_finalized true) a)).
        assert ((forall k, i <> k -> get_slot k a1 = get_slot k a)
                /\ forall n, destructor_calls n a1
                     = destructor_calls n a
                       + (if decide (n = i)
                          then b2n (negb (is_finalized (get_slot n a)))
                          else 0)) as [G1 C1].
        { subst a1. destruct (is_finalized (get_slot i a)) eqn:E.
          - split; [done|]. intros n.
            case_decide; [subst; rewrite E; simpl|]; lia.
          - split.
            + intros k Hk. rewrite get_slot_invoke_destructor_other by done.
              by rewrite get_slot_update_slot_ne.
            + intros n.
              destruct (invoke_destructor_frame i
                          (update_slot i (put_is_finalized true) a)) as [_ D].
              rewrite D.
              change (destructor_calls n (update_slot i ?f a))
                with (destructor_calls n a).
              case_decide.
              * subst. by rewrite E, Nat.eqb_refl.
              * by rewrite (proj2 (Nat.eqb_neq i n)). }
        destruct (IH a1 Hnd) as [G2 C2]. split.
        + intros k Hk. apply not_elem_of_cons in Hk as [Hki Hkl].
          rewrite G2 by done. by apply G1.
        + intros n. rewrite C2, C1.
          destruct (decide (n = i)) as [->|Hne].
          * rewrite (decide_False (P := i ∈ l)) by done.
            rewrite decide_True by (apply elem_of_cons; by left). lia.
          * rewrite G1 by done. destruct (decide (n ∈ l)).
            -- rewrite decide_True by (apply elem_of_cons; by right). lia.
            -- rewrite decide_False by (by apply not_elem_of_cons). lia. }
    destruct (Hloop (seq 0 (length (data s0))) s0 (NoDup_seq _ _)) as [_ Hcnt].
    rewrite Hcnt. rewrite decide_True by (apply elem_of_seq; simpl; lia).
    done.
Qed.

(** ** The outermost [stop()] *)

Lemma stop_slots tid s :
  (started s - 1 = 0)%Z ->
  length (data (stop tid s)) = length (data s)
  /\ forall j,
       get_slot j (stop tid s)
       = stop_slot_of (get_thread_started tid s - 1 =? 0)%Z
           (default_ready s) (suppresses s) (get_slot j s).
Proof.
  intros Hn. unfold stop, for_each_slot. rewrite Hn. cbn [Z.eqb].
  match goal with
  | |- context [foldl _ ?x _] => set (s2 := x)
  end.
  assert (default_ready s2 = default_ready s
          /\ suppresses s2 = suppresses s
          /\ length (data s2) = length (data s)
          /\ forall j, get_slot j s2
               = (if (get_thread_started tid s - 1 =? 0)%Z
                  then put_ready false (get_slot j s) else get_slot j s))
    as (E1 & E2 & E3 & E4).
  { subst s2. change (get_thread_started tid (with_started 0 s))
      with (get_thread_started tid s).
    destruct (get_thread_started tid s - 1 =? 0)%Z; simpl;
      repeat split; try done.
    - apply length_fmap.
    - intros j. unfold get_slot. simpl. rewrite list_lookup_fmap.
      by destruct (data s !! j). }
  destruct (slot_loop
    (fun i acc => if is_finalized (get_slot i acc) then acc
                  else invoke_destructor i acc)
    (fun _ d => if is_finalized d then d
                else destructor_slot_of (default_ready s) (suppresses s) d)
    (same_revert_settings s2)
    (fun _ => True)) with (l := seq 0 (length (data s2))) (s := s2)
    as [(_ & _ & HL & _) Hslots].
  - intros i acc HCa. destruct (is_finalized (get_slot i acc)); [done|].
    destruct HCa as (A1 & A2 & A3 & A4 & A5 & A6).
    destruct (same_revert_settings_invoke_destructor i acc)
      as (B1 & B2 & B3 & B4 & B5 & B6).
    repeat split; congruence.
  - intros i acc (A1 & A2 & A3 & A4 & _) _.
    destruct (is_finalized (get_slot i acc)) eqn:E; [done|].
    rewrite get_slot_invoke_destructor. congruence.
  - intros i j acc Hne. destruct (is_finalized (get_slot i acc)); [done|].
    by rewrite get_slot_invoke_destructor_other.
  - apply NoDup_seq.
  - by apply Forall_forall.
  - done.
  - split; [congruence|]. intros j. rewrite Hslots. unfold stop_slot_of.
    rewrite <- E4.
    destruct (decide (j ∈ seq 0 (length (data s2)))) as [Hin|Hout]; [done|].
    rewrite elem_of_seq in Hout.
    rewrite (get_slot_out_of_range j s2) by lia. done.
Qed.

(** X12. After any history that started from a table of empty slots, the
    [stop()] that brings the global counter from one to zero leaves every
    slot that is not finalized inactive.  If in addition [default_ready] is
    false and the calling thread's own counter returns to zero, every such
    slot is also not ready. *)
Theorem stop_outermost_deactivates vo demangle ops s0 tid j d :
  pristine s0 ->
  let s := runs vo demangle ops s0 in
  started s = 1%Z ->
  data (stop tid s) !! j = Some d ->
  is_finalized d = false ->
  is_active d = false
  /\ (default_ready s = false -> get_thread_started tid s = 1%Z ->
      ready d = false).
Proof.
  intros Hp s Hst Hl Hfin.
  destruct (stop_slots tid s ltac:(lia)) as [Hlen Hslots].
  assert (j < length (data s)) as Hj
    by (rewrite <- Hlen; by eapply lookup_lt_Some).
  destruct (lookup_lt_is_Some_2 _ _ Hj) as [d0 Hd0].
  destruct (table_ok_runs vo demangle ops s0 (table_ok_pristine demangle s0 Hp)
              j d0 Hd0) as [Hw _].
  pose proof (Hslots j) as Hd.
  rewrite (get_slot_lookup _ _ _ Hl), (get_slot_lookup _ _ _ Hd0) in Hd.
  subst d. unfold stop_slot_of, destructor_slot_of, revert_slot_of, slot_wf in *.
  destruct d0 as [r f a fin p t w c dt sp db bd]. simpl in *.
  destruct f; simpl in *.
  - destruct Hw as (_ & -> & _).
    split.
    + repeat (case_match; simpl in *; try done); congruence.
    + intros -> ->. simpl.
      repeat (case_match; simpl in *; try done); congruence.
  - destruct Hw as (-> & -> & _ & -> & _).
    split.
    + by repeat (case_match; simpl in *; try done).
    + intros _ ->. simpl. by repeat (case_match; simpl in *; try done).
Qed.

Lemma stop_outermost_deactivates_witness :
  let s0 := with_default_ready true (state_init 1) in
  let ops := [ op_construct 0 "malloc" 0 ""; op_start 0 ] in
  let s := runs true demangle_plain ops s0 in
  (pristine s0 /\ started s = 1%Z
   /\ data (stop 0 s) !! 0 = Some (get_slot 0 (stop 0 s))
   /\ is_finalized (get_slot 0 (stop 0 s)) = false
   /\ is_active (get_slot 0 s) = true)
  /\ is_active (get_slot 0 (stop 0 s)) = false.
Proof.
  intros s0 ops s.
  assert (pristine s0) as Hp.
  { split; [|done]. intros [|i] d; simpl; [by intros [= <-] | done]. }
  assert (started s = 1%Z) as H1 by (vm_compute; reflexivity).
  assert (data (stop 0 s) !! 0 = Some (get_slot 0 (stop 0 s))) as H2
    by (vm_compute; reflexivity).
  assert (is_finalized (get_slot 0 (stop 0 s)) = false) as H3
    by (vm_compute; reflexivity).
  assert (is_active (get_slot 0 s) = true) as H4 by (vm_compute; reflexivity).
  split; [exact (conj Hp (conj H1 (conj H2 (conj H3 H4))))|].
  exact (proj1 (stop_outermost_deactivates true demangle_plain ops s0 0 0 _
                  Hp H1 H2 H3)).
Defined.

(** ** [start()] on a quiescent table *)

Lemma quiescent_data s s' : data s' = data s -> quiescent s -> quiescent s'.
Proof. intros Hd Hq i. unfold get_slot. rewrite Hd. apply Hq. Qed.

Lemma quiescent_construct vo demangle N _func _priority _tool s :
  default_ready s = false -> quiescent s ->
  quiescent (snd (construct vo demangle N _func _priority _tool s)).
Proof.
  intros Hdr Hq i. destruct (decide (N = i)) as [<-|Hne].
  2: { rewrite get_slot_construct_other by done. apply Hq. }
  destruct (StdString.empty _func) eqn:He.
  { unfold construct. rewrite He. apply Hq. }
  destruct (fst (is_permitted vo _func s)) eqn:Hp.
  2: { destruct (construct_refused_effect vo demangle N _func _priority _tool
                   s He Hp) as (_ & Hd & _).
       unfold get_slot. rewrite Hd. apply Hq. }
  destruct (decide (N < length (data s))) as [HN|HN].
  - destruct (construct_slot vo demangle N _func _priority _tool s HN He Hp)
      as (_ & _ & _ & _ & A5 & _ & A7).
    destruct (Hq N) as [Hr Ha]. rewrite Hr, Hdr in A5, A7.
    assert ((if filled (get_slot N s) then false
             else if bool_decide (_func ∈ suppresses s) then false else false)
            = false) as E by (by repeat case_match).
    rewrite E in A5, A7. split; [by apply A7 | exact A5].
  - rewrite get_slot_out_of_range; [done|].
    rewrite (frame_length _ _ (proj1 (keeps_construct vo demangle N _func
                                        _priority _tool s))). lia.
Qed.

Lemma quiescent_foldl {A : Type} (body : state -> A -> state) (l : list A) s :
  (forall acc x, default_ready acc = false -> quiescent acc ->
                 default_ready (body acc x) = false /\ quiescent (body acc x)) ->
  default_ready s = false -> quiescent s ->
  default_ready (foldl body s l) = false /\ quiescent (foldl body s l).
Proof.
  intros Hbody. revert s. induction l as [|x l IH]; intros s Hd Hq; [done|].
  simpl. destruct (Hbody s x Hd Hq). by apply IH.
Qed.

Lemma quiescent_configure vo demangle s :
  default_ready s = false -> quiescent s ->
  default_ready (configure vo demangle s) = false
  /\ quiescent (configure vo demangle s).
Proof.
  intros Hd Hq. unfold configure. destruct (is_configured s); [done|].
  unfold run_initializer. apply quiescent_foldl; [|done|done].
  intros acc [[[N f] p] t] Hda Hqa. split.
  - etransitivity; [|exact Hda].
    exact (frame_default_ready _ _ (proj1 (keeps_construct vo demangle
                                             N f p t acc))).
  - by apply quiescent_construct.
Qed.

(** X13. With [default_ready] false, [start()] on a table in which no slot
    is ready or active leaves every slot inactive: whatever the initializer
    and the constructor closures configure is reverted by [construct] at
    once because it is not ready.  When the call is the first on its thread,
    it nevertheless marks every filled slot ready. *)
Theorem start_quiescent_stays_inactive vo demangle tid s i :
  default_ready s = false ->
  quiescent s ->
  is_finalizing s = false ->
  let s' := start vo demangle tid s in
  is_active (get_slot i s') = false
  /\ (get_thread_started tid s = 0%Z ->
      ready (get_slot i s') = filled (get_slot i s')).
Proof.
  intros Hd Hq Hf. unfold start. rewrite Hf.
  change (get_thread_started tid (with_started (started s + 1) s))
    with (get_thread_started tid s).
  set (s1 := set_thread_started tid _ (with_started (started s + 1) s)).
  assert (default_ready s1 = false /\ quiescent s1) as [D1 Q1] by done.
  set (s2 := if _ && negb (is_configured s1) then configure vo demangle s1 else s1).
  assert (default_ready s2 = false /\ quiescent s2) as [D2 Q2]
    by (subst s2; destruct (_ && _); [by apply quiescent_configure | done]).
  set (s3 := if (started s =? 0)%Z then _ else s2).
  assert (default_ready s3 = false /\ quiescent s3) as [D3 Q3].
  { subst s3. destruct (started s =? 0)%Z; [|done].
    destruct (quiescent_configure vo demangle s2 D2 Q2) as [D Q].
    unfold for_each_slot. apply quiescent_foldl; [|done|done].
    intros acc k Hda Hqa.
    destruct (is_finalized (get_slot k acc)); [done|].
    unfold invoke_constructor.
    change (get_slot k (log (call_constructor k) acc)) with (get_slot k acc).
    destruct (constructor (get_slot k acc)) as [|f p t]; [done|]. split.
    - etransitivity; [|exact Hda].
      exact (frame_default_ready _ _ (proj1 (keeps_construct vo demangle
                                               k f p t _))).
    - by apply quiescent_construct. }
  clearbody s3. simpl.
  destruct (get_thread_started tid s =? 0)%Z eqn:Et.
  - unfold get_slot. simpl. rewrite list_lookup_fmap.
    destruct (data s3 !! i) as [d|] eqn:E; simpl.
    + split; [|done]. destruct (Q3 i) as [_ Ha].
      by rewrite (get_slot_lookup _ _ _ E) in Ha.
    + done.
  - split; [apply Q3|]. intros Ht. rewrite Ht in Et. done.
Qed.

Lemma start_quiescent_stays_inactive_witness :
  let s := snd (construct true demangle_plain 0 "malloc" 0 "" (state_init 1)) in
  (default_ready s = false
   /\ (forall i, ready (get_slot i s) = false /\ is_active (get_slot i s) = false)
   /\ is_finalizing s = false)
  /\ is_active (get_slot 0 (start true demangle_plain 0 s)) = false
  /\ ready (get_slot 0 (start true demangle_plain 0 s)) = true.
Proof.
  intros s.
  assert (quiescent s) as Hq
    by (intros [|i]; split; vm_compute; reflexivity).
  assert (default_ready s = false) as Hd by (vm_compute; reflexivity).
  assert (is_finalizing s = false) as Hf by (vm_compute; reflexivity).
  assert (get_thread_started 0 s = 0%Z) as Ht by (vm_compute; reflexivity).
  split; [exact (conj Hd (conj Hq Hf))|].
  destruct (start_quiescent_stays_inactive true demangle_plain 0 s 0
              Hd Hq Hf) as [H1 H2].
  split; [exact H1|]. rewrite (H2 Ht). vm_compute. reflexivity.
Defined.

Lemma disable_finalizes_once_witness :
  let s := start true demangle_plain 0
             (snd (construct true demangle_plain 0 "malloc" 0 ""
                     (with_default_ready true (state_init 2)))) in
  (is_configured s = true /\ 0 < length (data s)
   /\ is_active (get_slot 0 s) = true)
  /\ is_finalized (get_slot 0 (disable s)) = true
  /\ is_active (get_slot 0 (disable s)) = false.
Proof.
  intros s.
  assert (is_configured s = true) as Hc by (vm_compute; reflexivity).
  assert (0 < length (data s)) as H0 by (vm_compute; lia).
  assert (is_active (get_slot 0 s) = true) as Ha by (vm_compute; reflexivity).
  split; [exact (conj Hc (conj H0 Ha))|].
  destruct (proj2 (proj2 (disable_finalizes_once s)) Hc) as [_ Hs].
  destruct (Hs 0 H0) as (H1 & H2 & _).
  split; [exact H1|]. rewrite H2. vm_compute. reflexivity.
Defined.

(** ** [global_finalize()] *)

(** X14. [global_finalize()] lowers a positive [started] and a positive
    counter of the calling thread to zero and leaves a negative one (more
    [stop()] than [start()] calls) as it is; it always leaves the component
    unconfigured, and if the component was configured every slot is
    finalized afterwards. *)
Theorem global_finalize_drains tid s :
  let s' := global_finalize tid s in
  started s' = Z.min (started s) 0
  /\ get_thread_started tid s' = Z.min (get_thread_started tid s) 0
  /\ is_configured s' = false
  /\ (is_configured s = true ->
      forall j, j < length (data s) -> is_finalized (get_slot j s') = true).
Proof.
  unfold global_finalize, drain. simpl.
  set (s1 := set_thread_started tid _ (with_started _ s)).
  assert (started s1 = Z.min (started s) 0
          /\ get_thread_started tid s1 = Z.min (get_thread_started tid s) 0
          /\ is_configured s1 = is_configured s
          /\ data s1 = data s) as (E1 & E2 & E3 & E4).
  { subst s1. unfold get_thread_started, set_thread_started. simpl.
    rewrite lookup_insert_eq. simpl.
    repeat split; case_match; lia. }
  destruct (is_configured s) eqn:Hc.
  - destruct (disable_slots s1 E3) as (D1 & D2 & D3 & D4 & D5).
    unfold get_thread_started in *. rewrite D3, D4. repeat split; try done.
    intros _ j Hj. rewrite D5 by (by rewrite E4).
    unfold disable_slot_of, destructor_slot_of, revert_slot_of.
    destruct (is_finalized (get_slot j s1)) eqn:E; [done|]. simpl.
    by repeat (case_match; simpl).
  - assert (disable s1 = s1) as -> by (unfold disable; by rewrite E3).
    done.
Qed.

Lemma global_finalize_drains_witness :
  let s := stop 0 (start true demangle_plain 0
                     (snd (construct true demangle_plain 0 "malloc" 0 ""
                             (state_init 1)))) in
  let s' := global_finalize 0 (stop 0 s) in
  (is_configured (stop 0 s) = true /\ 0 < length (data (stop 0 s))
   /\ started (stop 0 s) = (-1)%Z)
  /\ started s' = (-1)%Z
  /\ is_finalized (get_slot 0 s') = true.
Proof.
  intros s s'.
  assert (is_configured (stop 0 s) = true) as Hc by (vm_compute; reflexivity).
  assert (0 < length (data (stop 0 s))) as H0 by (vm_compute; lia).
  assert (started (stop 0 s) = (-1)%Z) as Hs by (vm_compute; reflexivity).
  split; [exact (conj Hc (conj H0 Hs))|].
  destruct (global_finalize_drains 0 (stop 0 s)) as (H1 & _ & _ & H4).
  split; [|exact (H4 Hc 0 H0)].
  unfold s'. rewrite H1, Hs. reflexivity.
Defined.

(** ** An instrumented call *)

Lemma alter_put_ready_restores (l : list gotcha_data) N d :
  l !! N = Some d -> ready d = true ->
  alter (put_ready true) N (alter (put_ready false) N l) = l.
Proof.
  intros Hl Hr. apply list_eq. intros i.
  destruct (decide (N = i)) as [<-|Hne].
  - rewrite !list_lookup_alter_eq, Hl. simpl. f_equal.
    destruct d; simpl in *; by subst.
  - by rewrite !list_lookup_alter_ne.
Qed.

Lemma toggle_suppress_on_raise p _did s :
  gotcha_suppression s = false ->
  toggle_suppress_on (Some p) _did s = (true, with_gotcha_suppression true s).
Proof. intros H. destruct p. unfold toggle_suppress_on, deref. by rewrite H. Qed.

Lemma toggle_suppress_on_keep p _did s :
  gotcha_suppression s = true -> toggle_suppress_on (Some p) _did s = (_did, s).
Proof. intros H. destruct p. unfold toggle_suppress_on, deref. by rewrite H. Qed.

Lemma toggle_suppress_off_lower p s :
  gotcha_suppression s = true ->
  toggle_suppress_off (Some p) true s = (false, with_gotcha_suppression false s).
Proof. intros H. destruct p. unfold toggle_suppress_off, deref. by rewrite H. Qed.

Lemma toggle_suppress_off_skip p s :
  toggle_suppress_off (Some p) false s = (false, s).
Proof. done. Qed.

Lemma instrument_enter_plain N s :
  suppression (get_slot N s) = None ->
  gotcha_suppression s = false ->
  instrument_enter N s
  = (false, false,
     update_slot N (put_ready true)
       (with_gotcha_suppression false
          (log (bundle N bundle_audit_incoming)
             (log (bundle N bundle_store)
                (log (bundle N bundle_start)
                   (log (bundle N bundle_construct)
                      (log (bundle N (bundle_ctor (tool_id (get_slot N s))))
                         (with_gotcha_suppression true
                            (update_slot N (put_ready false) s))))))))).
Proof.
  intros Es Hg. unfold instrument_enter. rewrite Es.
  change (toggle_suppress_on None false ?x) with (false, x). cbv iota beta.
  rewrite (toggle_suppress_on_raise gotcha_suppression_get false
             (update_slot N (put_ready false) s) Hg).
  cbv iota beta.
  by rewrite toggle_suppress_off_lower.
Qed.

Lemma instrument_enter_suppressible N s p :
  suppression (get_slot N s) = Some p ->
  gotcha_suppression s = false ->
  instrument_enter N s
  = (true, false,
     update_slot N (put_ready true)
       (log (bundle N bundle_audit_incoming)
          (log (bundle N bundle_store)
             (log (bundle N bundle_start)
                (log (bundle N bundle_construct)
                   (log (bundle N (bundle_ctor (tool_id (get_slot N s))))
                      (with_gotcha_suppression true
                         (update_slot N (put_ready false) s)))))))).
Proof.
  intros Es Hg. unfold instrument_enter. rewrite Es.
  rewrite (toggle_suppress_on_raise p false
             (update_slot N (put_ready false) s) Hg).
  cbv iota beta.
  by rewrite toggle_suppress_on_keep.
Qed.

Lemma instrument_leave_plain N s :
  suppression (get_slot N s) = None ->
  gotcha_suppression s = false ->
  instrument_leave N false false s
  = update_slot N (put_ready true)
      (with_gotcha_suppression false
         (log (bundle N bundle_stop)
            (log (bundle N bundle_audit_outgoing)
               (with_gotcha_suppression true
                  (update_slot N (put_ready false) s))))).
Proof.
  intros Es Hg. unfold instrument_leave. rewrite Es.
  rewrite (toggle_suppress_on_raise gotcha_suppression_get false
             (update_slot N (put_ready false) s) Hg).
  cbv iota beta.
  by rewrite toggle_suppress_off_lower.
Qed.

Lemma instrument_leave_suppressible N s p :
  suppression (get_slot N s) = Some p ->
  gotcha_suppression s = true ->
  instrument_leave N true false s
  = update_slot N (put_ready true)
      (with_gotcha_suppression false
         (log (bundle N bundle_stop)
            (log (bundle N bundle_audit_outgoing)
               (update_slot N (put_ready false) s)))).
Proof.
  intros Es Hg. unfold instrument_leave. rewrite Es.
  rewrite (toggle_suppress_on_keep gotcha_suppression_get false
             (update_slot N (put_ready false) s) Hg).
  cbv iota beta. rewrite toggle_suppress_off_skip. cbv iota beta.
  by rewrite toggle_suppress_off_lower by exact Hg.
Qed.

Lemma state_ext (a b : state) :
  data a = data b -> started a = started b ->
  thread_started a = thread_started b -> is_configured a = is_configured b ->
  default_ready a = default_ready b -> permit_list a = permit_list b ->
  reject_list a = reject_list b -> suppresses a = suppresses b ->
  initializer a = initializer b ->
  gotcha_suppression a = gotcha_suppression b ->
  is_finalizing a = is_finalizing b -> settings_debug a = settings_debug b ->
  trace a = trace b -> a = b.
Proof. destruct a, b. simpl. intros. by subst. Qed.

Lemma instrument_roundtrip N s :
  ready (get_slot N s) = true ->
  gotcha_suppression s = false ->
  instrument_leave N (fst (fst (instrument_enter N s)))
    (snd (fst (instrument_enter N s))) (snd (instrument_enter N s))
  = with_trace (trace s ++ instrumented_calls N (tool_id (get_slot N s))) s.
Proof.
  intros Hr Hg. unfold get_slot in Hr.
  destruct (data s !! N) as [d|] eqn:El; [|done]. simpl in Hr.
  assert (get_slot N s = d) as Hd by (unfold get_slot; by rewrite El).
  assert (forall x, data x = alter (put_ready true) N
                               (alter (put_ready false) N (data s)) ->
                    get_slot N x = d) as Hmid.
  { intros x Hx. unfold get_slot.
    by rewrite Hx, (alter_put_ready_restores _ N d El Hr), El. }
  destruct (suppression d) as [p|] eqn:Es.
  - rewrite (instrument_enter_suppressible N s p) by (by rewrite ?Hd).
    cbn [fst snd].
    rewrite (instrument_leave_suppressible N _ p);
      [|rewrite Hmid; [exact Es | reflexivity] | reflexivity].
    rewrite Hd. apply state_ext; try reflexivity.
    + simpl. by rewrite !(alter_put_ready_restores _ N d El Hr).
    + simpl. by rewrite Hg.
    + simpl. unfold instrumented_calls. by rewrite <- !app_assoc.
  - rewrite (instrument_enter_plain N s) by (by rewrite ?Hd).
    cbn [fst snd].
    rewrite (instrument_leave_plain N);
      [|rewrite Hmid; [exact Es | reflexivity] | reflexivity].
    rewrite Hd. apply state_ext; try reflexivity.
    + simpl. by rewrite !(alter_put_ready_restores _ N d El Hr).
    + simpl. by rewrite Hg.
    + simpl. unfold instrumented_calls. by rewrite <- !app_assoc.
Qed.

Section InstrumentedCall.

Variables (W Args Ret : Type) (Ret_default : Ret).


End InstrumentedCall.


(** ** The replacing dispatcher *)

Section ReplacerFacts.

Variables (W Args Ret : Type) (Ret_default : Ret).
Variable invoke_wrap_type :
  forall R : Type, (Args -> W -> R * W) -> Args -> W -> R * W.

(** X16. [replace_func] and [replace_void_func] look at the slot's [ready]
    flag only, not at [is_finalized] or at suppression.  On a slot that is
    not ready they call the original function and change nothing.  On a
    ready slot they hand the call to the replacing component, construct the
    function-local bundle on the first such call only, and leave the slot
    table exactly as they found it, the slot ready again. *)
Theorem replace_func_frame N (f : Args -> W -> Ret * W)
    (g : Args -> W -> unit * W) (_args : Args) (_bundle : bool) s (w : W) :
  let r := replace_func true W Args Ret Ret_default invoke_wrap_type
             N f _args _bundle s w in
  let v := replace_void_func true W Args invoke_wrap_type
             N g _args _bundle s w in
  let first_call := if _bundle then []
                    else [bundle N (bundle_ctor (tool_id (get_slot N s)))] in
  if ready (get_slot N s)
  then r = mk_replace_result W Ret (fst (invoke_wrap_type Ret f _args w)) true
             (with_trace (trace s ++ first_call) s)
             (snd (invoke_wrap_type Ret f _args w))
       /\ v = mk_replace_result W unit tt true
                (with_trace (trace s ++ first_call) s)
                (snd (invoke_wrap_type unit g _args w))
  else r = mk_replace_result W Ret (fst (f _args w)) _bundle s (snd (f _args w))
       /\ v = mk_replace_result W unit tt _bundle s (snd (g _args w)).
Proof.
  unfold replace_func, replace_void_func. simpl.
  destruct (ready (get_slot N s)) eqn:Hr; simpl.
  - unfold get_slot in Hr.
    destruct (data s !! N) as [d|] eqn:El; [|done]. simpl in Hr.
    assert (forall tr,
      update_slot N (put_ready true)
        (with_trace tr (update_slot N (put_ready false) s))
      = with_trace tr s) as Hrestore.
    { intros tr. destruct s. unfold update_slot, with_trace. simpl in *.
      by rewrite (alter_put_ready_restores _ N d El Hr). }
    assert (forall x : state,
      (if _bundle then x
       else log (bundle N (bundle_ctor (tool_id (get_slot N s)))) x)
      = with_trace (trace x ++ (if _bundle then []
           else [bundle N (bundle_ctor (tool_id (get_slot N s)))])) x) as Hlog.
    { intros x. destruct _bundle; [|done].
      rewrite app_nil_r. by destruct x. }
    rewrite !Hlog. simpl. rewrite !Hrestore.
    destruct (invoke_wrap_type Ret f _args w) as [r1 w1].
    destruct (invoke_wrap_type unit g _args w) as [u1 w2]. done.
  - destruct (f _args w) as [r1 w1]. destruct (g _args w) as [u1 w2]. done.
Qed.

End ReplacerFacts.

(** ** A call on a finalized slot *)

Section FinalizedCall.

Variables (W Args Ret : Type) (Ret_default : Ret).

(** X17. On a finalized slot (or while the TLS guard of the wrapper is
    raised) a wrapped call with a resolved function goes straight to that
    function: the engine state, debug output included, and the statics are
    untouched, whatever the slot's [ready] flag and the suppression flags
    are. *)
Theorem wrap_finalized_passthrough N (f : Args -> W -> Ret * W)
    (g : Args -> W -> unit * W) (_args : Args) st s (w : W) :
  is_finalized (get_slot N s) = true \/ _protect_tls_alloc st = true ->
  wrap true W Args Ret Ret_default N (Some f) _args st s w
    = mk_call_result W Ret (fst (f _args w)) st s (snd (f _args w))
  /\ wrap_void true W Args N (Some g) _args st s w
    = mk_call_result W unit (fst (g _args w)) st s (snd (g _args w)).
Proof.
  intros H.
  assert (is_finalized (get_slot N s) || _protect_tls_alloc st = true) as E
    by (destruct H as [-> | ->]; [done | apply orb_true_r]).
  unfold wrap, wrap_void, call_through. simpl. rewrite E.
  destruct (f _args w). by destruct (g _args w).
Qed.

End FinalizedCall.

Lemma wrap_finalized_passthrough_witness :
  let s := disable (start true demangle_plain 0
             (snd (construct true demangle_plain 0 "malloc" 0 ""
                     (state_init 1)))) in
  let st := {| _protect_tls_alloc := false; _recursive := false |} in
  let f := fun (a w : nat) => (a + 1, S w) in
  let g := fun (a w : nat) => (tt, S w) in
  (is_finalized (get_slot 0 s) = true /\ ready (get_slot 0 s) = true)
  /\ engine nat nat (wrap true nat nat nat 0 0 (Some f) 5 st s 0) = s.
Proof.
  intros s st f g.
  assert (is_finalized (get_slot 0 s) = true) as H1 by (vm_compute; reflexivity).
  assert (ready (get_slot 0 s) = true) as H2 by (vm_compute; reflexivity).
  split; [exact (conj H1 H2)|].
  rewrite (proj1 (wrap_finalized_passthrough nat nat nat 0 0 f g 5 st s 0
                    (or_introl H1))).
  reflexivity.
Defined.

(** ** What [revert] does to an active slot *)

(** X18. [revert<N>] on a slot that is filled and active returns true,
    makes the slot inactive, asks the backend once for priority -1 under the
    slot's label, and sets [ready] to [default_ready], or to false when the
    slot's label (not its symbol) is among the globally suppressed names;
    nothing else in the slot changes. *)
Theorem revert_active_slot N s :
  N < length (data s) ->
  filled (get_slot N s) = true ->
  is_active (get_slot N s) = true ->
  let r := revert N s in
  let d := get_slot N s in
  fst r = true
  /\ get_slot N (snd r)
     = put_ready (if bool_decide (tool_id d ∈ suppresses s) then false
                  else default_ready s) (put_is_active false d)
  /\ trace (snd r)
     = (trace s ++ [ backend_set_priority (tool_id d) (-1);
                     check_error N "get priority" ])%list.
Proof.
  intros HN Hf Ha. simpl.
  assert (filled (get_slot N s) && is_active (get_slot N s) = true) as E
    by (by rewrite Hf, Ha).
  pose proof (revert_slot N s HN E) as Hslot.
  split; [|split; [exact Hslot|]].
  - rewrite revert_fst, Hslot. simpl. exact Hf.
  - unfold revert.
    pose proof (trace_auto_toggle_enter s) as Ht.
    pose proof (get_slot_auto_toggle_enter N s) as Hg.
    destruct (auto_toggle_enter s) as [lk s0]. simpl in *.
    rewrite trace_auto_toggle_leave, Hg, E, <- Ht.
    destruct (bool_decide (tool_id (get_slot N s) ∈ suppresses s0));
      unfold log; simpl; by rewrite <- app_assoc.
Qed.

Lemma revert_active_slot_witness :
  let s := snd (construct true demangle_plain 0 "malloc" 0 ""
                  (with_default_ready true (state_init 1))) in
  (0 < length (data s) /\ filled (get_slot 0 s) = true
   /\ is_active (get_slot 0 s) = true)
  /\ fst (revert 0 s) = true.
Proof.
  intros s.
  assert (0 < length (data s)) as H0 by (vm_compute; lia).
  assert (filled (get_slot 0 s) = true) as H1 by (vm_compute; reflexivity).
  assert (is_active (get_slot 0 s) = true) as H2 by (vm_compute; reflexivity).
  split; [exact (conj H0 (conj H1 H2))|].
  exact (proj1 (revert_active_slot 0 s H0 H1 H2)).
Defined.

(** ** Nested [start()] and [stop()] *)

(** X19. A [start()] that is neither the first in the process nor the first
    on its thread, and a [stop()] that is neither the last on its thread nor
    the last in the process, only count: the slot table, the configuration
    flag and the trace of outgoing calls stay as they are.  A [start()]
    while the storage is finalizing does not even count. *)
Theorem nested_start_stop_only_count vo demangle tid s :
  (is_finalizing s = true -> start vo demangle tid s = s)
  /\ (is_finalizing s = false -> started s <> 0%Z ->
      get_thread_started tid s <> 0%Z ->
      start vo demangle tid s
      = set_thread_started tid (get_thread_started tid s + 1)
          (with_started (started s + 1) s))
  /\ (started s <> 1%Z -> get_thread_started tid s <> 1%Z ->
      stop tid s
      = set_thread_started tid (get_thread_started tid s - 1)
          (with_started (started s - 1) s)).
Proof.
  split; [|split].
  - intros H. unfold start. by rewrite H.
  - intros Hf Hn Ht. unfold start. rewrite Hf.
    change (get_thread_started tid (with_started (started s + 1) s))
      with (get_thread_started tid s).
    by rewrite (proj2 (Z.eqb_neq _ _) Hn), (proj2 (Z.eqb_neq _ _) Ht).
  - intros Hn Ht. unfold stop.
    change (get_thread_started tid (with_started (started s - 1) s))
      with (get_thread_started tid s).
    rewrite (proj2 (Z.eqb_neq (started s - 1) 0)) by lia.
    by rewrite (proj2 (Z.eqb_neq (get_thread_started tid s - 1) 0)) by lia.
Qed.

Lemma nested_start_stop_only_count_witness :
  let s := start true demangle_plain 0 (state_init 1) in
  (is_finalizing s = false /\ started s <> 0%Z
   /\ get_thread_started 0 s <> 0%Z)
  /\ data (start true demangle_plain 0 s) = data s
  /\ trace (start true demangle_plain 0 s) = trace s.
Proof.
  intros s.
  assert (is_finalizing s = false) as H1 by (vm_compute; reflexivity).
  assert (started s <> 0%Z) as H2 by (vm_compute; discriminate).
  assert (get_thread_started 0 s <> 0%Z) as H3 by (vm_compute; discriminate).
  split; [exact (conj H1 (conj H2 H3))|].
  rewrite (proj1 (proj2 (nested_start_stop_only_count true demangle_plain 0 s))
             H1 H2 H3).
  split; reflexivity.
Defined.

(** ** The outermost [start()] *)

Section BindingEvents.

Variable p : event -> bool.
Hypothesis p_binding : forall e, binding_event e = true -> p e = false.

Lemma count_log e s :
  count_events p (trace (log e s)) = count_events p (trace s) + b2n (p e).
Proof. unfold log. simpl. rewrite count_events_app. simpl. lia. Qed.

Lemma count_revert N s :
  count_events p (trace (snd (revert N s))) = count_events p (trace s).
Proof.
  unfold revert.
  pose proof (trace_auto_toggle_enter s) as Ht.
  destruct (auto_toggle_enter s) as [lk s0]. simpl in *.
  rewrite trace_auto_toggle_leave, <- Ht.
  destruct (filled (get_slot N s0) && is_active (get_slot N s0)); [|done].
  destruct (bool_decide (tool_id (get_slot N s0) ∈ _));
    change (trace (update_slot N ?f ?x)) with (trace x);
    rewrite !count_log, !p_binding by done; simpl; lia.
Qed.

(** [construct] makes binding calls only. *)
Lemma count_construct vo demangle N _func _priority _tool s :
  count_events p (trace (snd (construct vo demangle N _func _priority _tool s)))
  = count_events p (trace s).
Proof.
  apply (construct_steps vo demangle N _func _priority _tool
           (fun a b => count_events p (trace b) = count_events p (trace a)));
    clear s.
  - done.
  - intros s1 s2 s3 H12 H23. by rewrite H23.
  - intros s. by rewrite trace_auto_toggle_enter.
  - intros b s. by rewrite trace_auto_toggle_leave.
  - intros s. rewrite count_log, p_binding by done. simpl. lia.
  - intros s. unfold is_permitted, debug_printf.
    repeat case_match; simpl; try done;
      rewrite count_events_app; simpl; rewrite p_binding by done; simpl; lia.
  - done.
  - intros s _ _. unfold construct_fill.
    rewrite !count_log.
    change (trace (update_slot N ?f ?x)) with (trace x).
    rewrite !count_log, !p_binding by done. simpl. lia.
  - intros s _. unfold construct_activate.
    rewrite !count_log.
    change (trace (update_slot N ?f ?x)) with (trace x).
    rewrite !p_binding by done. simpl. lia.
  - intros s. apply count_revert.
Qed.

Lemma count_configure vo demangle s :
  p call_initializer = false ->
  count_events p (trace (configure vo demangle s)) = count_events p (trace s).
Proof.
  intros Hi. unfold configure. destruct (is_configured s); [done|].
  unfold run_initializer.
  assert (forall l a,
    count_events p (trace (foldl (fun acc '(N, f, p0, t) =>
        snd (configure_symbol vo demangle N f p0 t acc)) a l))
    = count_events p (trace a)) as Hfold.
  { induction l as [|[[[N f] p0] t] l IH]; intros a; [done|]. simpl.
    rewrite IH. apply count_construct. }
  rewrite Hfold, count_log, Hi. simpl.
  change (trace (with_is_configured true s)) with (trace s). lia.
Qed.

End BindingEvents.

Lemma constructor_loop vo demangle l s :
  NoDup l ->
  let s' := foldl (fun acc i => if is_finalized (get_slot i acc) then acc
                                else invoke_constructor vo demangle i acc) s l in
  frame s s'
  /\ forall n, constructor_calls n s'
       = constructor_calls n s
         + (if decide (n ∈ l)
            then b2n (negb (is_finalized (get_slot n s))) else 0).
Proof.
  revert s. induction l as [|i l IH]; intros s Hnd; cbn [foldl].
  - split; [apply frame_refl|]. intros n.
    rewrite decide_False by apply not_elem_of_nil. lia.
  - apply NoDup_cons in Hnd as [Hi Hnd].
    set (s1 := if is_finalized (get_slot i s) then s
               else invoke_constructor vo demangle i s).
    assert (frame s s1
            /\ forall n, constructor_calls n s1
                 = constructor_calls n s
                   + (if decide (n = i)
                      then b2n (negb (is_finalized (get_slot n s))) else 0))
      as [F1 D1].
    { subst s1. destruct (is_finalized (get_slot i s)) eqn:E.
      - split; [apply frame_refl|]. intros n.
        case_decide; [subst; rewrite E; simpl|]; lia.
      - split; [apply keeps_invoke_constructor|]. intros n.
        unfold invoke_constructor, constructor_calls.
        assert (count_events (is_call_constructor n)
                  (trace (log (call_constructor i) s))
                = count_events (is_call_constructor n) (trace s)
                  + b2n (Nat.eqb i n)) as Hlog
          by (unfold log; simpl; rewrite count_events_app; simpl; lia).
        destruct (constructor _).
        + rewrite Hlog. case_decide.
          * subst. by rewrite E, Nat.eqb_refl.
          * by rewrite (proj2 (Nat.eqb_neq i n)).
        + rewrite (count_construct (is_call_constructor n)), Hlog
            by (by intros []).
          case_decide.
          * subst. by rewrite E, Nat.eqb_refl.
          * by rewrite (proj2 (Nat.eqb_neq i n)). }
    destruct (IH s1 Hnd) as [F2 D2]. split; [by eapply frame_trans|].
    intros n. rewrite D2, D1, (frame_is_finalized _ _ F1).
    destruct (decide (n = i)) as [->|Hne].
    + rewrite (decide_False (P := i ∈ l)) by done.
      rewrite decide_True by (apply elem_of_cons; by left). lia.
    + destruct (decide (n ∈ l)).
      * rewrite decide_True by (apply elem_of_cons; by right). lia.
      * rewrite decide_False by (by apply not_elem_of_cons). lia.
Qed.


